(** * Temple flowers admin portal: the in-memory pipelines

    A shallow embedding of the client-side array pipelines of the admin
    portal: the order list (filter, sort, paginate, PDF and print export),
    the customer e-mail roll-up (aggregate, merge with the placeholder data,
    filter, copy, CSV export) and the dashboard's fourteen-day series.

    Conventions of the embedding
    - a JavaScript string is a [string]: a sequence of 8-bit code units,
      ordered code unit by code unit as [<] and [>] order JS strings;
      [toLowerCase] folds the letters A-Z;
    - a JavaScript array is a [list]; [Array.prototype.filter] and [map]
      are [filter] and [map], [join] is [String.concat];
    - a row of [flower_orders] keeps every column as the text the query
      client delivers: the components compare and interpolate them as text;
    - [new Date(s)] and the date-fns functions belong to the platform; the
      pipelines reach them through the [DateFns] interface. *)

From Stdlib Require Import String Ascii List ZArith Lia Bool Arith.
From Stdlib Require Import Sorting.Permutation Sorting.Sorted.
From Stdlib Require Import Structures.OrderedTypeEx DecimalString DecimalZ DecimalNat.
Import ListNotations.

Local Open Scope list_scope.
Local Open Scope string_scope.

(** ** JavaScript strings *)

Module JsString.

(** [c.toLowerCase()] on one code unit: A-Z (65-90) move to a-z. *)
Definition lower_ascii (c : ascii) : ascii :=
  let n := nat_of_ascii c in
  if (65 <=? n)%nat && (n <=? 90)%nat then ascii_of_nat (n + 32) else c.

(** [s.toLowerCase()], on texts of 8-bit code units: A-Z fold to a-z. The
    engine folds every cased letter and looks at the context of some (a
    final sigma). The general theorems below use of the fold only that it
    leaves the empty text, and no other, empty; the closed examples fold
    texts of plain letters, digits and signs. *)
Fixpoint toLowerCase (s : string) : string :=
  match s with
  | EmptyString => EmptyString
  | String c s' => String (lower_ascii c) (toLowerCase s')
  end.

(** [s.includes(q)]: [q] occurs in [s] at some offset. *)
Fixpoint includes (s q : string) : bool :=
  String.prefix q s ||
  match s with
  | EmptyString => false
  | String _ s' => includes s' q
  end.

(** [!s]: of all strings only the empty one is falsy. *)
Definition falsy (s : string) : bool :=
  match s with EmptyString => true | String _ _ => false end.

(** [a >= b] and [a <= b] on strings, each the negation of a strict test. *)
Definition geb (a b : string) : bool := negb (String.ltb a b).
Definition leb (a b : string) : bool := negb (String.ltb b a).

(** [`${n}`] for a non-negative integer, as the templates print [count]
    and [length]. *)
Definition of_nat (n : nat) : string :=
  NilZero.string_of_uint (Nat.to_uint n).

(** The double quote and the line feed written [\n] in the source. *)
Definition dquote : string := String (ascii_of_nat 34) EmptyString.
Definition nl : string := String (ascii_of_nat 10) EmptyString.

(** Value of a decimal digit. *)
Definition digit (c : ascii) : option nat :=
  let n := nat_of_ascii c in
  if (48 <=? n)%nat && (n <=? 57)%nat then Some (n - 48)%nat else None.

(** The longest run of leading digits of [s], read in base ten on top of
    [acc]; [seen] tells whether a digit has been read. *)
Fixpoint parseDigits (s : string) (acc : nat) (seen : bool) : option nat :=
  match s with
  | EmptyString => if seen then Some acc else None
  | String c s' =>
      match digit c with
      | Some d => parseDigits s' (10 * acc + d) true
      | None => if seen then Some acc else None
      end
  end.

(** [parseInt(s)] on unsigned decimal text; [None] is [NaN]. *)
Definition parseInt (s : string) : option nat := parseDigits s 0 false.

(** [q] occurs in [s]: the meaning of a substring match. *)
Definition Substring (q s : string) : Prop :=
  exists pre post, s = pre ++ q ++ post.

(** [s.split("\n")]: the lines of a text. *)
Fixpoint split_lf (s : string) : list string :=
  match s with
  | EmptyString => [""]
  | String c s' =>
      if Ascii.eqb c (ascii_of_nat 10) then "" :: split_lf s'
      else match split_lf s' with
           | [] => [String c ""]
           | l :: ls => String c l :: ls
           end
  end.

(** [s.includes("\n")]. *)
Fixpoint hasLineFeed (s : string) : bool :=
  match s with
  | EmptyString => false
  | String c s' => Ascii.eqb c (ascii_of_nat 10) || hasLineFeed s'
  end.

(** [s.includes(c)] for one character [c]. *)
Fixpoint hasChar (c : ascii) (s : string) : bool :=
  match s with
  | EmptyString => false
  | String x s' => Ascii.eqb x c || hasChar c s'
  end.

End JsString.

Import JsString.

(** ** Dates

    Instants are milliseconds since the epoch, as [Date.prototype.getTime]
    gives them. *)

Class DateFns := {
  (** [new Date(s).getTime()] on the text of a [DATE] or [TIMESTAMPTZ]
      column; both columns are [NOT NULL], so the value is never [NaN]. *)
  getTime : string -> Z;
  (** date-fns [format(date, pattern)], in the viewer's time zone. *)
  format : Z -> string -> string;
  (** date-fns [subDays(date, amount)]. *)
  subDays : Z -> Z -> Z
}.

(** ** Arrays *)

Module JsArray.

Section Sort.
Context {A : Type}.
Variable compareFn : A -> A -> Z.

(** Place [x], which precedes every element of [l] in the input, into the
    sorted [l]: behind the elements it must follow ([compareFn x y > 0]) and
    in front of the first one it may precede, equal ones included. *)
Fixpoint insert (x : A) (l : list A) : list A :=
  match l with
  | [] => [x]
  | y :: l' => if (0 <? compareFn x y)%Z then y :: insert x l' else x :: l
  end.

(** [Array.prototype.sort(compareFn)]: a stable sort, as ECMAScript requires
    since ES2019; only the sign of [compareFn] is looked at. *)
Fixpoint sort (l : list A) : list A :=
  match l with
  | [] => []
  | x :: l' => insert x (sort l')
  end.

End Sort.

(** [l.slice(s, e)] for indices [0 <= s]; the end is clamped to the length. *)
Definition slice {A : Type} (s e : nat) (l : list A) : list A :=
  firstn (e - s) (skipn s l).

(** [Math.ceil(n / d)] for a length [n] and a positive [d]. *)
Definition ceil_div (n d : nat) : nat :=
  (n / d + (if (n mod d =? 0)%nat then 0 else 1))%nat.

End JsArray.

(** ** The order record *)

Module Order.

(** A row of [public.flower_orders] as the query client returns it. *)
Record t := mk {
  id : string;
  customer_name : string;
  email : string;
  phone_number : string;
  pickup_date : string;
  time_slot : string;
  special_requests : option string;
  status : string;
  created_at : string
}.

End Order.

(** ** The order list: [Orders] *)

Module Orders.

Definition PAGE_SIZE : nat := 10.

(** [type SortField], one constructor per column header that sorts. *)
Inductive SortField :=
  created_at | pickup_date | customer_name | phone_number | time_slot.

Inductive SortDir := asc | desc.

(** The component's state: what [useState] holds. *)
Record State := mkState {
  search : string;
  statusFilter : string;
  dateFilter : string;
  sortField : SortField;
  sortDir : SortDir;
  page : nat
}.

(** The callback of [orders.filter]. *)
Definition matches (st : State) (o : Order.t) : bool :=
  let q := toLowerCase (search st) in
  let matchesSearch :=
    falsy q
    || includes (toLowerCase (Order.customer_name o)) q
    || includes (toLowerCase (Order.email o)) q
    || includes (Order.phone_number o) q in
  let matchesStatus :=
    (statusFilter st =? "all") || (Order.status o =? statusFilter st) in
  let matchesDate :=
    falsy (dateFilter st) || (Order.pickup_date o =? dateFilter st) in
  matchesSearch && matchesStatus && matchesDate.

(** [aVal] and [bVal]: [string | number]. *)
Inductive SortVal := Num (n : Z) | Str (s : string).

(** [aVal < bVal]. Both values always leave the same branch of the switch;
    a number is never compared with a string. *)
Definition val_lt (a b : SortVal) : bool :=
  match a, b with
  | Num x, Num y => (x <? y)%Z
  | Str x, Str y => String.ltb x y
  | _, _ => false
  end.

(** The [switch (sortField)] that picks the value compared. *)
Definition sortVal `{DateFns} (f : SortField) (o : Order.t) : SortVal :=
  match f with
  | customer_name => Str (toLowerCase (Order.customer_name o))
  | phone_number => Str (Order.phone_number o)
  | time_slot => Str (Order.time_slot o)
  | pickup_date => Num (getTime (Order.pickup_date o))
  | created_at => Num (getTime (Order.created_at o))
  end.

(** The callback of [filtered.sort]. *)
Definition compareFn `{DateFns} (f : SortField) (d : SortDir)
  (a b : Order.t) : Z :=
  let aVal := sortVal f a in
  let bVal := sortVal f b in
  if val_lt aVal bVal then match d with asc => -1 | desc => 1 end
  else if val_lt bVal aVal then match d with asc => 1 | desc => -1 end
  else 0%Z.

(** [filtered] right after [orders.filter], before it is sorted in place. *)
Definition filterStage (st : State) (orders : list Order.t) : list Order.t :=
  filter (matches st) orders.

(** [filtered] as every later line sees it: filtered, then sorted. *)
Definition filtered `{DateFns} (st : State) (orders : list Order.t)
  : list Order.t :=
  JsArray.sort (compareFn (sortField st) (sortDir st)) (filterStage st orders).

Definition totalPages (filtered : list Order.t) : nat :=
  JsArray.ceil_div (length filtered) PAGE_SIZE.

Definition paginated (page : nat) (filtered : list Order.t) : list Order.t :=
  JsArray.slice (page * PAGE_SIZE) ((page + 1) * PAGE_SIZE) filtered.

(** The calls [exportPDF] makes on the jsPDF document, in order. The
    [styles] and [headStyles] of the table only colour it. *)
Inductive PdfCall :=
| setFontSize (size : nat)
| text (s : string) (x y : nat)
| autoTable (startY : nat) (head body : list (list string))
| save (fileName : string).

Definition pdfRow `{DateFns} (o : Order.t) : list string :=
  [ Order.customer_name o; Order.email o; Order.phone_number o;
    Order.pickup_date o; Order.time_slot o; Order.status o;
    format (getTime (Order.created_at o)) "MMM d, yyyy" ].

Definition pdfHead : list (list string) :=
  [["Customer"; "Email"; "Phone"; "Pickup Date"; "Slot"; "Status"; "Created"]].

(** [exportPDF], run at the instant [now] over the view's [filtered]. *)
Definition exportPDF `{DateFns} (now : Z) (filtered : list Order.t)
  : list PdfCall :=
  [ setFontSize 16;
    text "Vinayaka Pooja Flowers" 14 18;
    setFontSize 10;
    text ("Generated: " ++ format now "PPpp") 14 26;
    text (of_nat (length filtered) ++ " orders") 14 32;
    autoTable 38 pdfHead (map pdfRow filtered);
    save "vinayaka-orders.pdf" ].

Definition printRow `{DateFns} (o : Order.t) : string :=
  "<tr><td>" ++ Order.customer_name o ++ "</td><td>" ++ Order.email o
  ++ "</td><td>" ++ Order.phone_number o ++ "</td><td>" ++ Order.pickup_date o
  ++ "</td><td>" ++ Order.time_slot o ++ "</td><td>" ++ Order.status o
  ++ "</td><td>" ++ format (getTime (Order.created_at o)) "MMM d, yyyy"
  ++ "</td></tr>".

Definition printPrologue : string :=
  "<!DOCTYPE html><html><head><title>Vinayaka Orders</title><style>body{font-family:sans-serif;padding:20px}h1{color:#5c3310}table{width:100%;border-collapse:collapse;margin-top:12px}th,td{border:1px solid #ddd;padding:6px 8px;text-align:left;font-size:12px}th{background:#d97706;color:#fff}</style></head><body><h1>Vinayaka Pooja Flowers</h1><p>".

Definition printTableHead : string :=
  " orders</p><table><tr><th>Customer</th><th>Email</th><th>Phone</th><th>Pickup</th><th>Slot</th><th>Status</th><th>Created</th></tr>".

Definition printEpilogue : string :=
  "</table><script>window.print();window.close();</script></body></html>".

(** [handlePrint]: what is written into the print window, or nothing when
    [window.open] returned no window ([opened = false]). *)
Definition handlePrint `{DateFns} (opened : bool) (now : Z)
  (filtered : list Order.t) : option string :=
  if negb opened then None
  else
    let rows := String.concat "" (map printRow filtered) in
    Some (printPrologue ++ format now "PPpp" ++ " — "
          ++ of_nat (length filtered) ++ printTableHead ++ rows
          ++ printEpilogue).

(** What a reader of the PDF gets: the lines of text, and the body of
    each table, as the calls lay them down. *)
Definition pdfTexts (calls : list PdfCall) : list string :=
  flat_map (fun c => match c with text s _ _ => [s] | _ => [] end) calls.

Definition pdfTables (calls : list PdfCall) : list (list (list string)) :=
  flat_map (fun c => match c with autoTable _ _ body => [body] | _ => [] end)
           calls.

(** All the pages of a list, first to last. *)
Definition allPages (filtered : list Order.t) : list (list Order.t) :=
  map (fun i => paginated i filtered) (seq 0 (totalPages filtered)).

(** The search predicate in the words of the specification: the text is
    empty, or it matches the name or the e-mail with case folded on both
    sides, or it occurs as it was typed in the phone number. *)
Definition spec_matchesSearch (searchText : string) (o : Order.t) : bool :=
  falsy searchText
  || includes (toLowerCase (Order.customer_name o)) (toLowerCase searchText)
  || includes (toLowerCase (Order.email o)) (toLowerCase searchText)
  || includes (Order.phone_number o) searchText.

(** The natural order of the values a column sorts by. *)
Definition fieldLe `{DateFns} (f : SortField) (a b : Order.t) : Prop :=
  match f with
  | created_at =>
      (getTime (Order.created_at a) <= getTime (Order.created_at b))%Z
  | pickup_date =>
      (getTime (Order.pickup_date a) <= getTime (Order.pickup_date b))%Z
  | customer_name =>
      String.leb (toLowerCase (Order.customer_name a))
                 (toLowerCase (Order.customer_name b)) = true
  | phone_number =>
      String.leb (Order.phone_number a) (Order.phone_number b) = true
  | time_slot => String.leb (Order.time_slot a) (Order.time_slot b) = true
  end.

(** Two orders carry the same sort value. *)
Definition sameKey `{DateFns} (f : SortField) (a b : Order.t) : bool :=
  negb (val_lt (sortVal f a) (sortVal f b))
  && negb (val_lt (sortVal f b) (sortVal f a)).

(** *** The handlers and the pagination bar *)

(** What [useState] holds right after the mount. *)
Definition initial : State := mkState "" "all" "" created_at desc 0.

(** [sortField === field]. *)
Definition SortField_eqb (f g : SortField) : bool :=
  match f, g with
  | created_at, created_at | pickup_date, pickup_date
  | customer_name, customer_name | phone_number, phone_number
  | time_slot, time_slot => true
  | _, _ => false
  end.

(** [toggleSort]: a click on a column header. *)
Definition toggleSort (field : SortField) (st : State) : State :=
  if SortField_eqb (sortField st) field
  then mkState (search st) (statusFilter st) (dateFilter st) (sortField st)
               (match sortDir st with asc => desc | desc => asc end) (page st)
  else mkState (search st) (statusFilter st) (dateFilter st) field desc
               (page st).

(** The [onChange] of the search box, the [onValueChange] of the status
    select and the [onChange] of the date input: each stores the value and
    calls [setPage(0)]. *)
Definition onSearch (v : string) (st : State) : State :=
  mkState v (statusFilter st) (dateFilter st) (sortField st) (sortDir st) 0.

Definition onStatus (v : string) (st : State) : State :=
  mkState (search st) v (dateFilter st) (sortField st) (sortDir st) 0.

Definition onDate (v : string) (st : State) : State :=
  mkState (search st) (statusFilter st) v (sortField st) (sortDir st) 0.

(** The mount effect: [searchParams.get] gives [null] ([None]) or the text
    of the parameter; a truthy [status] or [pickupDate] sets its filter. *)
Definition onMount (status pickupDate : option string) (st : State) : State :=
  let statusFilter' :=
    match status with
    | Some v => if falsy v then statusFilter st else v
    | None => statusFilter st
    end in
  let dateFilter' :=
    match pickupDate with
    | Some v => if falsy v then dateFilter st else v
    | None => dateFilter st
    end in
  mkState (search st) statusFilter' dateFilter' (sortField st) (sortDir st)
          (page st).

(** The bar under the table is rendered when [totalPages > 1]. *)
Definition barShown (filtered : list Order.t) : bool :=
  (1 <? totalPages filtered)%nat.

(** The two numbers of [Showing a-b of n]. *)
Definition showingFrom (page : nat) : nat := page * PAGE_SIZE + 1.

Definition showingTo (page : nat) (filtered : list Order.t) : nat :=
  Nat.min ((page + 1) * PAGE_SIZE) (length filtered).

(** [disabled] of the two buttons; the bar is shown only for two pages or
    more, where [totalPages - 1] does not go below zero. *)
Definition prevDisabled (page : nat) : bool := (page =? 0)%nat.

Definition nextDisabled (page : nat) (filtered : list Order.t) : bool :=
  (totalPages filtered - 1 <=? page)%nat.

(** A click on a button: a disabled or absent button does nothing. *)
Definition clickPrev (page : nat) (filtered : list Order.t) : nat :=
  if barShown filtered && negb (prevDisabled page) then page - 1 else page.

Definition clickNext (page : nat) (filtered : list Order.t) : nat :=
  if barShown filtered && negb (nextDisabled page filtered) then page + 1
  else page.

(** The row [No orders found] stands in for an empty page. *)
Definition noOrdersFound (page : nat) (filtered : list Order.t) : bool :=
  (length (paginated page filtered) =? 0)%nat.

End Orders.

(** ** The order list as first written: [OrdersV1]

    The earlier page has the same filter and the same pagination, two
    sortable columns, and a callback that subtracts. *)

Module OrdersV1.

Inductive SortField := created_at | pickup_date.

Record State := mkState {
  search : string;
  statusFilter : string;
  dateFilter : string;
  sortField : SortField;
  sortDir : Orders.SortDir;
  page : nat
}.

(** The callback of [filtered.sort]; instants are integers, so the
    subtraction is exact. *)
Definition compareFn `{DateFns} (f : SortField) (d : Orders.SortDir)
  (a b : Order.t) : Z :=
  let aVal :=
    match f with
    | created_at => getTime (Order.created_at a)
    | pickup_date => getTime (Order.pickup_date a)
    end in
  let bVal :=
    match f with
    | created_at => getTime (Order.created_at b)
    | pickup_date => getTime (Order.pickup_date b)
    end in
  match d with Orders.desc => (bVal - aVal)%Z | Orders.asc => (aVal - bVal)%Z end.

(** The same state on the later page. *)
Definition later (st : State) : Orders.State :=
  Orders.mkState (search st) (statusFilter st) (dateFilter st)
    match sortField st with
    | created_at => Orders.created_at
    | pickup_date => Orders.pickup_date
    end
    (sortDir st) (page st).

Definition filtered `{DateFns} (st : State) (orders : list Order.t)
  : list Order.t :=
  JsArray.sort (compareFn (sortField st) (sortDir st))
               (filter (Orders.matches (later st)) orders).

End OrdersV1.

(** ** Customer aggregates *)

Module Customer.

(** The value type of the accumulator map. *)
Record t := mk {
  email : string;
  name : string;
  count : nat;
  lastDate : string
}.

End Customer.

(** A JavaScript [Map] keyed by strings. It remembers the order in which
    keys were first set, and [values()] walks it in that order. *)
Module JsMap.

Section Ops.
Context {V : Type}.

Definition t : Type := list (string * V).

Fixpoint get (k : string) (m : list (string * V)) : option V :=
  match m with
  | [] => None
  | (k', v) :: m' => if k' =? k then Some v else get k m'
  end.

Definition has (k : string) (m : list (string * V)) : bool :=
  match get k m with Some _ => true | None => false end.

(** [set] overwrites the value of a present key where it stands and
    appends an absent key. *)
Fixpoint set (k : string) (v : V) (m : list (string * V))
  : list (string * V) :=
  match m with
  | [] => [(k, v)]
  | (k', v') :: m' => if k' =? k then (k, v) :: m' else (k', v') :: set k v m'
  end.

Definition values (m : list (string * V)) : list V := map snd m.

End Ops.

End JsMap.

(** The page [src/pages/admin/CustomerEmails.tsx]. *)
Module CustomerEmails.

(** One turn of [orders.forEach]. [existing] is the very object the map
    holds, so its mutation is a write at the key's place in the map. *)
Definition visit (map : list (string * Customer.t)) (o : Order.t)
  : list (string * Customer.t) :=
  match JsMap.get (Order.email o) map with
  | Some existing =>
      let count' := S (Customer.count existing) in
      let existing' :=
        if String.ltb (Customer.lastDate existing) (Order.created_at o)
        then Customer.mk (Customer.email existing) (Order.customer_name o)
                         count' (Order.created_at o)
        else Customer.mk (Customer.email existing) (Customer.name existing)
                         count' (Customer.lastDate existing) in
      JsMap.set (Order.email o) existing' map
  | None =>
      JsMap.set (Order.email o)
        (Customer.mk (Order.email o) (Order.customer_name o) 1
                     (Order.created_at o)) map
  end.

(** The map after [orders.forEach]. *)
Definition aggregate (orders : list Order.t) : list (string * Customer.t) :=
  fold_left visit orders [].

(** [customers]: [Array.from(map.values())]. *)
Definition customers (orders : list Order.t) : list Customer.t :=
  JsMap.values (aggregate orders).

(** The filter inputs of the page. *)
Record State := mkState {
  search : string;
  minOrders : string;
  dateFrom : string;
  dateTo : string
}.

(** The callback of [customers.filter]. *)
Definition matches (st : State) (c : Customer.t) : bool :=
  let q := toLowerCase (search st) in
  let matchesSearch :=
    falsy q
    || includes (toLowerCase (Customer.email c)) q
    || includes (toLowerCase (Customer.name c)) q in
  let matchesMin :=
    (minOrders st =? "all")
    || match parseInt (minOrders st) with
       | Some n => (n <=? Customer.count c)%nat
       | None => false
       end in
  let matchesFrom :=
    falsy (dateFrom st) || geb (Customer.lastDate c) (dateFrom st) in
  let matchesTo :=
    falsy (dateTo st) || leb (Customer.lastDate c) (dateTo st ++ "T23:59:59") in
  matchesSearch && matchesMin && matchesFrom && matchesTo.

Definition filtered (st : State) (customers : list Customer.t)
  : list Customer.t :=
  filter (matches st) customers.

(** [copyAll]: the text handed to the clipboard. *)
Definition copyAll (filtered : list Customer.t) : string :=
  String.concat ", " (map Customer.email filtered).

Definition csvRow `{DateFns} (c : Customer.t) : string :=
  Customer.email c ++ "," ++ dquote ++ Customer.name c ++ dquote ++ ","
  ++ of_nat (Customer.count c) ++ ","
  ++ format (getTime (Customer.lastDate c)) "yyyy-MM-dd".

(** [exportCSV]: the content of the downloaded blob. *)
Definition exportCSV `{DateFns} (filtered : list Customer.t) : string :=
  let header := "Email,Customer Name,Total Orders,Last Order Date" ++ nl in
  let rows := String.concat nl (map csvRow filtered) in
  header ++ rows.

(** A timestamp text lies on the calendar day [day] ([yyyy-MM-dd]) when it
    is that day followed by [T] and a time of day. *)
Definition onDay (day stamp : string) : bool := String.prefix (day ++ "T") stamp.

(** The orders of one customer, in fetched order. *)
Definition ordersOf (e : string) (orders : list Order.t) : list Order.t :=
  filter (fun o => Order.email o =? e) orders.

(** [c] sums up the orders placed under the e-mail [e]: it counts them,
    holds the greatest of their creation timestamps in the order of
    strings, and bears the name on the first order created at that
    timestamp. *)
Definition Summary (orders : list Order.t) (e : string) (c : Customer.t)
  : Prop :=
  let mine := ordersOf e orders in
  Customer.email c = e
  /\ Customer.count c = length mine
  /\ In (Customer.lastDate c) (map Order.created_at mine)
  /\ (forall o, In o mine ->
        String.ltb (Customer.lastDate c) (Order.created_at o) = false)
  /\ exists o,
       find (fun o => Order.created_at o =? Customer.lastDate c) mine = Some o
       /\ Customer.name c = Order.customer_name o.

(** The accumulator map agrees with the orders visited so far. *)
Definition Agrees (map : list (string * Customer.t)) (orders : list Order.t)
  : Prop :=
  NoDup (List.map fst map)
  /\ forall e,
       match JsMap.get e map with
       | Some c => Summary orders e c
       | None => ~ In e (List.map Order.email orders)
       end.

(** The e-mails of a list in the order of their first occurrence
    ([nodup] keeps the last occurrence of each, hence the two reversals). *)
Definition firstOccurrences (emails : list string) : list string :=
  rev (nodup string_dec (rev emails)).

(** The state with another threshold, search text or date range: what
    [setMinOrders], [setSearch], [setDateFrom] and [setDateTo] store. *)
Definition setMinOrders (v : string) (st : State) : State :=
  mkState (search st) v (dateFrom st) (dateTo st).

Definition setSearch (v : string) (st : State) : State :=
  mkState v (minOrders st) (dateFrom st) (dateTo st).

(** What [useState] holds right after the mount. *)
Definition initial : State := mkState "" "all" "" "".

(** The text of the toast of [copyAll]. *)
Definition copiedToast (filtered : list Customer.t) : string :=
  of_nat (length filtered) ++ " emails copied".

(** The fields of one CSV line as a spreadsheet reads them: a comma
    outside double quotes ends a field; a double quote opens or closes a
    quoted stretch and is no part of the field. [quoted] tells whether the
    reader stands inside quotes. *)
Fixpoint csvFields (quoted : bool) (s : string) : list string :=
  match s with
  | EmptyString => [""]
  | String c s' =>
      if Ascii.eqb c "034"%char then csvFields (negb quoted) s'
      else if Ascii.eqb c ","%char && negb quoted then "" :: csvFields false s'
      else match csvFields quoted s' with
           | [] => [String c ""]
           | f :: fs => String c f :: fs
           end
  end.

End CustomerEmails.

(** The variant of the page that mixes in placeholder customers. *)
Module CustomerEmailsDummy.

Definition DUMMY_CUSTOMERS : list Customer.t :=
  [ Customer.mk "rahul.sharma@email.com" "Rahul Sharma" 5 "2026-02-14T10:00:00Z";
    Customer.mk "priya.iyer@email.com" "Priya Iyer" 3 "2026-02-13T09:00:00Z";
    Customer.mk "arun.kumar@email.com" "Arun Kumar" 8 "2026-02-12T08:30:00Z";
    Customer.mk "lakshmi.devi@email.com" "Lakshmi Devi" 2 "2026-02-11T14:00:00Z";
    Customer.mk "suresh.reddy@email.com" "Suresh Reddy" 6 "2026-02-10T11:00:00Z";
    Customer.mk "meena.nair@email.com" "Meena Nair" 1 "2026-02-09T16:00:00Z";
    Customer.mk "ganesh.patel@email.com" "Ganesh Patel" 4 "2026-02-08T07:30:00Z";
    Customer.mk "anitha.rao@email.com" "Anitha Rao" 7 "2026-02-07T13:00:00Z";
    Customer.mk "vijay.krishnan@email.com" "Vijay Krishnan" 2 "2026-02-06T10:30:00Z";
    Customer.mk "deepa.menon@email.com" "Deepa Menon" 9 "2026-02-05T15:00:00Z";
    Customer.mk "karthik.subram@email.com" "Karthik Subramanian" 3 "2026-02-04T08:00:00Z";
    Customer.mk "revathi.bala@email.com" "Revathi Balasubramanian" 1 "2026-02-03T12:00:00Z";
    Customer.mk "mohan.das@email.com" "Mohan Das" 5 "2026-02-02T09:30:00Z";
    Customer.mk "sridevi.ram@email.com" "Sridevi Raman" 4 "2026-02-01T14:30:00Z";
    Customer.mk "prasad.venkat@email.com" "Prasad Venkatesh" 2 "2026-01-31T11:00:00Z";
    Customer.mk "kavitha.sundar@email.com" "Kavitha Sundaram" 6 "2026-01-30T16:30:00Z";
    Customer.mk "ramesh.babu@email.com" "Ramesh Babu" 3 "2026-01-29T07:00:00Z";
    Customer.mk "uma.mahesh@email.com" "Uma Maheshwari" 10 "2026-01-28T13:30:00Z";
    Customer.mk "balaji.srinivas@email.com" "Balaji Srinivasan" 1 "2026-01-27T10:00:00Z";
    Customer.mk "padma.narayanan@email.com" "Padma Narayanan" 7 "2026-01-26T15:00:00Z" ].

(** One turn of [DUMMY_CUSTOMERS.forEach]: a placeholder is copied in
    only under an e-mail the map does not hold yet. *)
Definition addDummy (map : list (string * Customer.t)) (d : Customer.t)
  : list (string * Customer.t) :=
  if negb (JsMap.has (Customer.email d) map)
  then JsMap.set (Customer.email d) d map
  else map.

(** The accumulator after both loops, over any placeholder list. *)
Definition merge (dummies : list Customer.t) (orders : list Order.t)
  : list (string * Customer.t) :=
  fold_left addDummy dummies (fold_left CustomerEmails.visit orders []).

(** [customers] of this variant. *)
Definition customers (orders : list Order.t) : list Customer.t :=
  JsMap.values (merge DUMMY_CUSTOMERS orders).

End CustomerEmailsDummy.

(** ** The dashboard *)

Module Dashboard.

(** A point of the line chart. *)
Record Point := mkPoint {
  date : string;
  orders : nat
}.

(** [lineData], computed in a render at the instant [now]. *)
Definition lineData `{DateFns} (now : Z) (orders : list Order.t)
  : list Point :=
  map (fun i =>
         let date := subDays now (13 - Z.of_nat i) in
         let dateStr := format date "yyyy-MM-dd" in
         let count :=
           length (filter (fun o =>
                     format (getTime (Order.created_at o)) "yyyy-MM-dd"
                     =? dateStr) orders) in
         mkPoint (format date "MMM d") count)
      (seq 0 14).

(** The orders created on the local calendar day numbered [day]. *)
Definition createdOn `{DateFns} (localDay : Z -> Z) (day : Z)
  (orders : list Order.t) : list Order.t :=
  filter (fun o => (localDay (getTime (Order.created_at o)) =? day)%Z) orders.

(** The four summary cards. *)
Definition total (orders : list Order.t) : nat := length orders.

Definition pending (orders : list Order.t) : nat :=
  length (filter (fun o => Order.status o =? "Pending") orders).

Definition completed (orders : list Order.t) : nat :=
  length (filter (fun o => Order.status o =? "Completed") orders).

Definition todayPickups `{DateFns} (now : Z) (orders : list Order.t) : nat :=
  let todayStr := format now "yyyy-MM-dd" in
  length (filter (fun o => Order.pickup_date o =? todayStr) orders).

(** A slice of the pie chart. *)
Record Slice := mkSlice {
  name : string;
  value : nat
}.

(** [slotCounts]. *)
Definition slotCounts (orders : list Order.t) : list Slice :=
  map (fun slot =>
         mkSlice slot
           (length (filter (fun o => Order.time_slot o =? slot) orders)))
      ["Morning"; "Evening"; "Night"].

(** The orders created on one of the fourteen days that end today. *)
Definition createdInWindow `{DateFns} (localDay : Z -> Z) (now : Z)
  (orders : list Order.t) : list Order.t :=
  filter (fun o =>
            let day := localDay (getTime (Order.created_at o)) in
            (localDay now - 13 <=? day)%Z && (day <=? localDay now)%Z)
         orders.

End Dashboard.

(** ** The login page: [AdminLogin] *)

Module AdminLogin.

(** What [useState] holds. *)
Record State := mkState {
  email : string;
  password : string;
  error : string;
  loading : bool;
  isSignup : bool
}.

(** [if (error)] on the [error] that [signIn] of the auth hook hands back:
    [null] ([None]) and the empty text are falsy. *)
Definition truthy (e : option string) : bool :=
  match e with Some s => negb (falsy s) | None => false end.

(** The text [setError(error)] stores. *)
Definition errorText (e : option string) : string :=
  match e with Some s => s | None => "" end.

Definition accountCreated : string :=
  "Account created! Please log in. (You need admin role to access the dashboard)".

(** How an awaited call of the auth client ends: the promise rejects (the
    [await] throws), or it resolves with an [error] that may be [null]. *)
Inductive Reply :=
| rejected
| resolved (error : option string).

(** [handleSubmit], from the state at the submit to the state when the
    handler has stopped, with the route it navigated to, if any. [signUp]
    is how [supabase.auth.signUp] ends, its error being the [message] of the
    error object (an error object is truthy whatever its message); [signIn]
    is how the hook's [signIn] ends. Each call happens only on the paths
    that reach it. The handler has no [try]: when an awaited call rejects it
    stops there, and only the setters called before that [await] have run. *)
Definition handleSubmit (st : State) (signUp signIn : Reply)
  : State * option string :=
  if isSignup st then
    match signUp with
    | rejected => (mkState (email st) (password st) "" true true, None)
    | resolved (Some message) =>
        (mkState (email st) (password st) message false true, None)
    | resolved None =>
        match signIn with
        | rejected => (mkState (email st) (password st) "" false false, None)
        | resolved signInError =>
            if truthy signInError
            then (mkState (email st) (password st) accountCreated false false,
                  None)
            else (mkState (email st) (password st) "" false false,
                  Some "/admin/dashboard")
        end
    end
  else
    match signIn with
    | rejected => (mkState (email st) (password st) "" true false, None)
    | resolved error =>
        if truthy error
        then (mkState (email st) (password st) (errorText error) false false,
              None)
        else (mkState (email st) (password st) "" false false,
              Some "/admin/dashboard")
    end.

(** The button under the form: [setIsSignup(!isSignup); setError("")]. *)
Definition toggleMode (st : State) : State :=
  mkState (email st) (password st) "" (loading st) (negb (isSignup st)).

End AdminLogin.

(** ** A reference clock

    One concrete platform for closed examples: the viewer sits at UTC,
    timestamps are the store's [yyyy-MM-dd] and [yyyy-MM-ddTHH:mm:ss...] texts
    read at UTC, and a formatted date is the count of days since the epoch in
    decimal digits, whatever the pattern. *)

Module RefClock.

Definition msPerDay : Z := 86400000.

(** Days from 1970-01-01 to the civil date [y]-[m]-[d] (Gregorian). *)
Definition days_from_civil (y m d : Z) : Z :=
  let y' := if (m <=? 2)%Z then (y - 1)%Z else y in
  let era := (y' / 400)%Z in
  let yoe := (y' - era * 400)%Z in
  let mp := if (m <=? 2)%Z then (m + 9)%Z else (m - 3)%Z in
  let doy := ((153 * mp + 2) / 5 + d - 1)%Z in
  let doe := (yoe * 365 + yoe / 4 - yoe / 100 + doy)%Z in
  (era * 146097 + doe - 719468)%Z.

(** The decimal field of [s] at offset [i], [n] characters wide. *)
Definition field (i n : nat) (s : string) : Z :=
  match parseInt (substring i n s) with
  | Some v => Z.of_nat v
  | None => 0%Z
  end.

Definition parse (s : string) : Z :=
  (days_from_civil (field 0 4 s) (field 5 2 s) (field 8 2 s) * msPerDay
   + ((field 11 2 s * 60 + field 14 2 s) * 60 + field 17 2 s) * 1000)%Z.

Definition localDay (t : Z) : Z := (t / msPerDay)%Z.

Definition dayStamp (t : Z) (pattern : string) : string :=
  NilEmpty.string_of_int (Z.to_int (localDay t)).

Definition clock : DateFns := {|
  getTime := parse;
  format := dayStamp;
  subDays := fun t n => (t - n * msPerDay)%Z
|}.

(** The civil date of the day numbered [z] from 1970-01-01: year, month
    and day of the month (Gregorian). *)
Definition civil_from_days (z : Z) : Z * Z * Z :=
  let z' := (z + 719468)%Z in
  let era := (z' / 146097)%Z in
  let doe := (z' - era * 146097)%Z in
  let yoe := ((doe - doe / 1460 + doe / 36524 - doe / 146096) / 365)%Z in
  let doy := (doe - (365 * yoe + yoe / 4 - yoe / 100))%Z in
  let mp := ((5 * doy + 2) / 153)%Z in
  let d := (doy - (153 * mp + 2) / 5 + 1)%Z in
  let m := if (mp <? 10)%Z then (mp + 3)%Z else (mp - 9)%Z in
  let y := (yoe + era * 400 + (if (m <=? 2)%Z then 1 else 0))%Z in
  (y, m, d).

(** [n] in decimal digits, with zeros in front up to [width] digits. *)
Definition pad (width : nat) (n : Z) : string :=
  let digits := of_nat (Z.to_nat n) in
  String.concat "" (repeat "0" (width - String.length digits)) ++ digits.

(** The day numbered [z] printed as [yyyy-MM-dd]. *)
Definition ymd (z : Z) : string :=
  let '(y, m, d) := civil_from_days z in
  pad 4 y ++ "-" ++ pad 2 m ++ "-" ++ pad 2 d.

(** The same clock with a calendar: the pattern [yyyy-MM-dd] prints the
    civil date at UTC; any other pattern prints the day count as before. *)
Definition calendar : DateFns := {|
  getTime := parse;
  format := fun t pattern =>
    if pattern =? "yyyy-MM-dd" then ymd (localDay t) else dayStamp t pattern;
  subDays := fun t n => (t - n * msPerDay)%Z
|}.

End RefClock.

(** ** Closed inputs used by the examples *)

Module Examples.

(** An order whose phone number carries an extension in capitals. *)
Definition ext_order : Order.t :=
  Order.mk "o-1" "Ravi" "ravi@temple.in" "555 EXT 2" "2026-02-14" "Morning"
           None "Pending" "2026-02-10T08:00:00Z".

(** The operator typed the extension as it is stored. *)
Definition ext_search : Orders.State :=
  Orders.mkState "EXT" "all" "" Orders.created_at Orders.desc 0.

(** Two morning orders and an evening one, in fetched order. *)
Definition morning_a : Order.t :=
  Order.mk "o-2" "Asha" "asha@temple.in" "9840011111" "2026-02-15" "Morning"
           None "Pending" "2026-02-11T09:30:00Z".

Definition morning_b : Order.t :=
  Order.mk "o-3" "Bala" "bala@temple.in" "9840022222" "2026-02-16" "Morning"
           None "Completed" "2026-02-12T07:15:00Z".

Definition evening_c : Order.t :=
  Order.mk "o-4" "Chitra" "chitra@temple.in" "9840033333" "2026-02-15"
           "Evening" None "Pending" "2026-02-12T18:45:00Z".

(** The page with no filter set, sorted by time slot. *)
Definition by_slot (d : Orders.SortDir) : Orders.State :=
  Orders.mkState "" "all" "" Orders.time_slot d 0.

(** Twenty-five orders: three pages. *)
Definition twenty_five : list Order.t := repeat morning_a 25.

(** The scenario of two orders under one e-mail. *)
Definition old_name : Order.t :=
  Order.mk "o-5" "Old Name" "a@x.com" "9840044444" "2026-01-03" "Morning"
           None "Completed" "2026-01-01T00:00:00Z".

Definition new_name : Order.t :=
  Order.mk "o-6" "New Name" "a@x.com" "9840044444" "2026-01-07" "Night"
           None "Pending" "2026-01-05T00:00:00Z".

Definition new_name_row : Customer.t :=
  Customer.mk "a@x.com" "New Name" 2 "2026-01-05T00:00:00Z".

(** A customer whose last order came in the closing second of 9 February,
    and the filter that asks for everything up to 9 February. *)
Definition late_customer : Customer.t :=
  Customer.mk "meena.nair@email.com" "Meena Nair" 1
              "2026-02-09T23:59:59.250+00:00".

Definition until_feb_9 : CustomerEmails.State :=
  CustomerEmails.mkState "" "all" "" "2026-02-09".

(** Three orders as the query delivers them: newest first. *)
Definition newest_first : list Order.t := [evening_c; morning_b; morning_a].

(** A customer whose name holds a comma. *)
Definition comma_name : Customer.t :=
  Customer.mk "priya.iyer@email.com" "Iyer, Priya" 3 "2026-02-13T09:00:00Z".

(** Noon of 15 February 2026 at UTC, in milliseconds. *)
Definition feb_15 : Z := RefClock.parse "2026-02-15T12:00:00Z".

End Examples.

(** * Properties *)

(** ** Strings *)

Module JsStringFacts.

Lemma falsy_true_iff (s : string) : falsy s = true <-> s = "".
Proof. destruct s; simpl; split; congruence. Qed.

Lemma falsy_toLowerCase (s : string) : falsy (toLowerCase s) = falsy s.
Proof. destruct s; reflexivity. Qed.

Lemma prefix_true_iff (q s : string) :
  String.prefix q s = true <-> exists post, s = q ++ post.
Proof.
  revert s; induction q as [|c q IH]; intros s.
  - split; [intros _; now exists s | intros _; now destruct s].
  - destruct s as [|c' s]; simpl.
    + split; [discriminate | intros [post H]; discriminate].
    + destruct (Ascii.ascii_dec c c') as [->|Hne].
      * rewrite IH. split; intros [post H]; exists post.
        -- now rewrite H.
        -- now injection H.
      * split; [discriminate | intros [post H]; injection H; congruence].
Qed.

Lemma includes_true_iff (s q : string) :
  includes s q = true <-> Substring q s.
Proof.
  unfold Substring; induction s as [|c s IH]; cbn [includes].
  - rewrite orb_false_r, prefix_true_iff. split.
    + intros [post H]; now exists "", post.
    + intros [pre [post H]]. destruct pre; simpl in H; [now exists post|discriminate].
  - rewrite orb_true_iff, prefix_true_iff, IH. split.
    + intros [[post H] | [pre [post H]]].
      * now exists "", post.
      * exists (String c pre), post; simpl; now rewrite H.
    + intros [pre [post H]]. destruct pre as [|c' pre]; simpl in H.
      * left; now exists post.
      * right; exists pre, post; now injection H.
Qed.

End JsStringFacts.

(** ** Numbers in decimal digits *)

Module JsNumberFacts.

Lemma append_nil_r (s : string) : s ++ "" = s.
Proof. induction s as [|c s IH]; simpl; [reflexivity | now rewrite IH]. Qed.

Lemma length_append (a b : string) :
  String.length (a ++ b) = String.length a + String.length b.
Proof. induction a as [|c a IH]; simpl; [reflexivity | now rewrite IH]. Qed.

(** The digits of [d] in front of a text that does not go on with a digit
    read back as the number they print, on top of what was read before. *)
Lemma digits_read_back (d : Decimal.uint) (acc : nat) (rest : string) :
  match rest with EmptyString => True | String c _ => digit c = None end ->
  parseDigits (NilEmpty.string_of_uint d ++ rest) acc true
  = Some (Nat.of_uint_acc d acc).
Proof.
  intros Hrest. revert acc.
  induction d as [|d IH|d IH|d IH|d IH|d IH|d IH|d IH|d IH|d IH|d IH];
    intros acc; cbn [NilEmpty.string_of_uint append parseDigits Nat.of_uint_acc].
  1: { destruct rest as [|c rest]; [reflexivity|]. cbn [parseDigits].
       now rewrite Hrest. }
  all: match goal with
       | |- context [digit ?c] =>
           let v := eval vm_compute in (digit c) in change (digit c) with v
       end;
       cbv beta iota; rewrite IH, Nat.tail_mul_spec; do 2 f_equal; lia.
Qed.

(** A number printed in decimal and read with [parseInt] is the number,
    whatever text without a leading digit follows it. *)
Lemma decimal_read_back (n : nat) (rest : string) :
  match rest with EmptyString => True | String c _ => digit c = None end ->
  parseInt (NilZero.string_of_uint (Nat.to_uint n) ++ rest) = Some n.
Proof.
  intros Hrest. rewrite <- (DecimalNat.Unsigned.of_to n) at 2.
  unfold parseInt, Nat.of_uint.
  destruct (Nat.to_uint n) as [|d|d|d|d|d|d|d|d|d|d];
    cbn [NilZero.string_of_uint NilEmpty.string_of_uint append parseDigits
         Nat.of_uint_acc];
    try (destruct rest as [|c rest]; [reflexivity|]; cbn [append parseDigits];
         change (digit "0") with (Some 0); cbv beta iota; cbn [parseDigits];
         now rewrite Hrest);
    match goal with
    | |- context [digit ?c] =>
        let v := eval vm_compute in (digit c) in change (digit c) with v
    end;
    cbv beta iota; rewrite (digits_read_back d _ rest Hrest); reflexivity.
Qed.

(** A number printed in decimal holds digits only. *)
Lemma decimal_digits_only (n : nat) (c : ascii) :
  digit c = None ->
  hasChar c (NilZero.string_of_uint (Nat.to_uint n)) = false.
Proof.
  intros Hc.
  assert (Hd : forall x, digit x <> None -> Ascii.eqb x c = false).
  { intros x Hx. destruct (Ascii.eqb_spec x c) as [->|]; [contradiction|].
    reflexivity. }
  assert (H : forall d, hasChar c (NilEmpty.string_of_uint d) = false).
  { induction d; cbn [NilEmpty.string_of_uint hasChar];
      [reflexivity | rewrite Hd, IHd by discriminate; reflexivity ..]. }
  destruct (Nat.to_uint n); cbn [NilZero.string_of_uint];
    [cbn [hasChar]; rewrite Hd by discriminate; reflexivity | apply H ..].
Qed.

End JsNumberFacts.

(** ** The order of strings *)

Module StrOrder.

Lemma ltb_lts (a b : string) : String.ltb a b = true <-> String_as_OT.lt a b.
Proof.
  rewrite <- String_as_OT.cmp_lt. unfold String.ltb, String_as_OT.cmp.
  destruct (String.compare a b); split; congruence.
Qed.

Lemma ltb_irrefl (a : string) : String.ltb a a = false.
Proof.
  unfold String.ltb.
  replace (String.compare a a) with Eq; [reflexivity|].
  symmetry; now apply String_as_OT.cmp_eq.
Qed.

Lemma ltb_trans (a b c : string) :
  String.ltb a b = true -> String.ltb b c = true -> String.ltb a c = true.
Proof. rewrite !ltb_lts. apply String_as_OT.lt_trans. Qed.

Lemma ltb_asym (a b : string) : String.ltb a b = true -> String.ltb b a = false.
Proof.
  intros Hab. destruct (String.ltb b a) eqn:Hba; [|reflexivity].
  pose proof (ltb_trans _ _ _ Hab Hba) as H. rewrite ltb_irrefl in H. discriminate.
Qed.

Lemma ltb_connex (a b : string) :
  String.ltb a b = false -> String.ltb b a = false -> a = b.
Proof.
  unfold String.ltb. rewrite (String.compare_antisym a b).
  destruct (String.compare b a) eqn:E; simpl; try discriminate.
  intros _ _. symmetry. now apply String.compare_eq_iff.
Qed.

Lemma leb_ltb (a b : string) : String.leb a b = true <-> String.ltb b a = false.
Proof.
  unfold String.leb, String.ltb. rewrite (String.compare_antisym a b).
  destruct (String.compare b a); simpl; split; congruence.
Qed.

(** Nothing lies strictly between [a] and [b] when [b] is not above [a]. *)
Lemma ltb_false_trans (a b c : string) :
  String.ltb b a = false -> String.ltb c b = false -> String.ltb c a = false.
Proof.
  intros Hba Hcb. destruct (String.ltb c a) eqn:Hca; [|reflexivity].
  destruct (String.ltb a b) eqn:Hab.
  - pose proof (ltb_trans _ _ _ Hca Hab). congruence.
  - rewrite (ltb_connex _ _ Hab Hba) in Hca. congruence.
Qed.

End StrOrder.

(** ** The stable sort *)

Module SortFacts.

Section Generic.
Context {A : Type}.
Variable cmp : A -> A -> Z.

Lemma insert_perm (x : A) (l : list A) :
  Permutation (JsArray.insert cmp x l) (x :: l).
Proof.
  induction l as [|y l IH]; simpl; [reflexivity|].
  destruct (0 <? cmp x y)%Z; [|reflexivity].
  rewrite IH. apply perm_swap.
Qed.

Lemma sort_perm (l : list A) : Permutation (JsArray.sort cmp l) l.
Proof.
  induction l as [|x l IH]; simpl; [reflexivity|].
  rewrite insert_perm. now constructor.
Qed.

(** Sorting leaves untouched every sub-sequence no two of whose members
    the comparison separates. *)
Lemma insert_filter (p : A -> bool) (x : A) (l : list A) :
  (forall y, p x = true -> p y = true -> (0 <? cmp x y)%Z = false) ->
  filter p (JsArray.insert cmp x l) = filter p (x :: l).
Proof.
  intros Hp. induction l as [|y l IH]; [reflexivity|].
  cbn [JsArray.insert]. destruct (0 <? cmp x y)%Z eqn:Hxy; [|reflexivity].
  cbn [filter] in *. rewrite IH.
  destruct (p x) eqn:Hx, (p y) eqn:Hy; try reflexivity.
  rewrite (Hp y eq_refl Hy) in Hxy. discriminate.
Qed.

Lemma sort_filter (p : A -> bool) (l : list A) :
  (forall x y, p x = true -> p y = true -> (0 <? cmp x y)%Z = false) ->
  filter p (JsArray.sort cmp l) = filter p l.
Proof.
  intros Hp. induction l as [|x l IH]; [reflexivity|].
  cbn [JsArray.sort]. rewrite insert_filter by (intros; now apply Hp).
  cbn [filter]. now rewrite IH.
Qed.

End Generic.

(** Only the sign of the callback matters. *)
Lemma sort_ext {A : Type} (c1 c2 : A -> A -> Z) (l : list A) :
  (forall x y, (0 <? c1 x y)%Z = (0 <? c2 x y)%Z) ->
  JsArray.sort c1 l = JsArray.sort c2 l.
Proof.
  intros Hc. induction l as [|x l IH]; simpl; [reflexivity|].
  rewrite IH. generalize (JsArray.sort c2 l) as s.
  induction s as [|y s IHs]; simpl; [reflexivity|].
  now rewrite Hc, IHs.
Qed.

Section Sorted.
Context {A : Type}.
Variable cmp : A -> A -> Z.

Hypothesis cmp_trans :
  forall a b c, (cmp a b <= 0 -> cmp b c <= 0 -> cmp a c <= 0)%Z.
Hypothesis cmp_other : forall a b, (0 < cmp a b -> cmp b a <= 0)%Z.

Lemma insert_sorted (x : A) (l : list A) :
  StronglySorted (fun a b => (cmp a b <= 0)%Z) l ->
  StronglySorted (fun a b => (cmp a b <= 0)%Z) (JsArray.insert cmp x l).
Proof.
  induction 1 as [|y l Hl IH Hy]; simpl.
  - repeat constructor.
  - destruct (0 <? cmp x y)%Z eqn:Hxy.
    + apply Z.ltb_lt in Hxy. constructor; [exact IH|].
      eapply Permutation_Forall; [symmetry; apply insert_perm|].
      constructor; [now apply cmp_other | exact Hy].
    + apply Z.ltb_ge in Hxy. constructor.
      * now constructor.
      * constructor; [exact Hxy|].
        eapply Forall_impl; [|exact Hy]. intros z Hz. now apply cmp_trans with y.
Qed.

Lemma sort_sorted (l : list A) :
  StronglySorted (fun a b => (cmp a b <= 0)%Z) (JsArray.sort cmp l).
Proof.
  induction l as [|x l IH]; simpl; [constructor | now apply insert_sorted].
Qed.

End Sorted.

Section Lists.
Context {A : Type}.

Lemma sorted_impl (R S : A -> A -> Prop) (l : list A) :
  (forall a b, R a b -> S a b) -> StronglySorted R l -> StronglySorted S l.
Proof.
  intros HRS; induction 1 as [|y l Hl IH Hy]; constructor; [exact IH|].
  eapply Forall_impl; [|exact Hy]. intros b; apply HRS.
Qed.

Lemma sorted_snoc (R : A -> A -> Prop) (l : list A) (a : A) :
  StronglySorted R l -> Forall (fun x => R x a) l ->
  StronglySorted R (l ++ [a]).
Proof.
  induction 1 as [|y l Hl IH Hy]; intros Ha; simpl.
  - repeat constructor.
  - inversion Ha as [|? ? Hya Hla]; subst. constructor; [now apply IH|].
    apply Forall_app; split; [exact Hy | now constructor].
Qed.

Lemma sorted_rev (R : A -> A -> Prop) (l : list A) :
  StronglySorted R l -> StronglySorted (fun a b => R b a) (rev l).
Proof.
  induction 1 as [|y l Hl IH Hy]; simpl; [constructor|].
  apply sorted_snoc; [exact IH|]. apply Forall_rev. exact Hy.
Qed.

(** At most one arrangement of a list is sorted by an asymmetric relation. *)
Lemma sorted_perm_eq (R : A -> A -> Prop) (l1 l2 : list A) :
  (forall a b, R a b -> R b a -> False) ->
  StronglySorted R l1 -> StronglySorted R l2 -> Permutation l1 l2 ->
  l1 = l2.
Proof.
  intros Hasym H1; revert l2.
  induction H1 as [|a l1 Hl1 IH Ha]; intros l2 H2 HP.
  - apply Permutation_nil in HP; now subst.
  - destruct l2 as [|b l2]; [symmetry in HP; now apply Permutation_nil in HP|].
    inversion H2 as [|? ? Hl2 Hb]; subst.
    assert (a = b) as ->.
    { assert (In a (b :: l2)) as [->|Hin]
        by (eapply Permutation_in; [exact HP | now left]); [reflexivity|].
      assert (In b (a :: l1)) as [->|Hin']
        by (eapply Permutation_in; [symmetry; exact HP | now left]);
        [reflexivity|].
      rewrite Forall_forall in Ha, Hb.
      exfalso; apply (Hasym a b); auto. }
    f_equal. apply IH; [exact Hl2|]. now apply Permutation_cons_inv in HP.
Qed.

End Lists.

End SortFacts.

(** ** The order list *)

Module OrdersFacts.

Import Orders.

Section WithDates.
Context `{DateFns}.

Lemma val_lt_irrefl (v : SortVal) : val_lt v v = false.
Proof. destruct v; simpl; [apply Z.ltb_irrefl | apply StrOrder.ltb_irrefl]. Qed.

Lemma val_lt_asym (v w : SortVal) : val_lt v w = true -> val_lt w v = false.
Proof.
  destruct v, w; simpl; try discriminate.
  - rewrite Z.ltb_lt, Z.ltb_ge; lia.
  - apply StrOrder.ltb_asym.
Qed.

(** Along one column the values are totally ordered. *)
Lemma val_lt_connex (f : SortField) (a b : Order.t) :
  val_lt (sortVal f a) (sortVal f b) = false ->
  val_lt (sortVal f b) (sortVal f a) = false ->
  sortVal f a = sortVal f b.
Proof.
  destruct f; simpl; rewrite ?Z.ltb_ge; intros H1 H2; f_equal;
    try lia; now apply StrOrder.ltb_connex.
Qed.

Lemma val_lt_false_trans (f : SortField) (a b c : Order.t) :
  val_lt (sortVal f b) (sortVal f a) = false ->
  val_lt (sortVal f c) (sortVal f b) = false ->
  val_lt (sortVal f c) (sortVal f a) = false.
Proof.
  destruct f; simpl; rewrite ?Z.ltb_ge; try lia; apply StrOrder.ltb_false_trans.
Qed.

Lemma fieldLe_val_lt (f : SortField) (a b : Order.t) :
  fieldLe f a b <-> val_lt (sortVal f b) (sortVal f a) = false.
Proof.
  destruct f; simpl; rewrite ?Z.ltb_ge; try reflexivity; apply StrOrder.leb_ltb.
Qed.

(** What the sign of the callback says, per direction. *)
Lemma compareFn_asc_le (f : SortField) (a b : Order.t) :
  (compareFn f asc a b <= 0)%Z <-> val_lt (sortVal f b) (sortVal f a) = false.
Proof.
  unfold compareFn.
  destruct (val_lt (sortVal f a) (sortVal f b)) eqn:E1.
  - rewrite (val_lt_asym _ _ E1). split; [reflexivity | lia].
  - destruct (val_lt (sortVal f b) (sortVal f a)); split;
      (lia || congruence || reflexivity).
Qed.

Lemma compareFn_desc_le (f : SortField) (a b : Order.t) :
  (compareFn f desc a b <= 0)%Z <-> val_lt (sortVal f a) (sortVal f b) = false.
Proof.
  unfold compareFn.
  destruct (val_lt (sortVal f a) (sortVal f b)) eqn:E1.
  - split; [lia | congruence].
  - destruct (val_lt (sortVal f b) (sortVal f a)); split;
      (lia || congruence || reflexivity).
Qed.

Lemma compareFn_trans (f : SortField) (d : SortDir) (a b c : Order.t) :
  (compareFn f d a b <= 0 -> compareFn f d b c <= 0 -> compareFn f d a c <= 0)%Z.
Proof.
  destruct d.
  - rewrite !compareFn_asc_le. intros; now apply val_lt_false_trans with b.
  - rewrite !compareFn_desc_le. intros; now apply val_lt_false_trans with b.
Qed.

Lemma compareFn_other (f : SortField) (d : SortDir) (a b : Order.t) :
  (0 < compareFn f d a b -> compareFn f d b a <= 0)%Z.
Proof.
  unfold compareFn.
  destruct (val_lt (sortVal f a) (sortVal f b)) eqn:E1.
  - rewrite (val_lt_asym _ _ E1). destruct d; lia.
  - destruct (val_lt (sortVal f b) (sortVal f a)); destruct d; lia.
Qed.

Lemma sameKey_eq (f : SortField) (a b : Order.t) :
  sameKey f a b = true <-> sortVal f a = sortVal f b.
Proof.
  unfold sameKey. rewrite andb_true_iff, !negb_true_iff. split.
  - intros [H1 H2]. now apply val_lt_connex.
  - intros ->. now rewrite val_lt_irrefl.
Qed.

Lemma compareFn_sameKey (f : SortField) (d : SortDir) (o x y : Order.t) :
  sameKey f o x = true -> sameKey f o y = true ->
  (0 <? compareFn f d x y)%Z = false.
Proof.
  rewrite !sameKey_eq. intros Hx Hy. unfold compareFn.
  rewrite <- Hx, <- Hy, val_lt_irrefl. reflexivity.
Qed.

Lemma sorted_asc (f : SortField) (l : list Order.t) :
  StronglySorted (fun a b => val_lt (sortVal f b) (sortVal f a) = false)
                 (JsArray.sort (compareFn f asc) l).
Proof.
  eapply SortFacts.sorted_impl;
    [| apply SortFacts.sort_sorted;
       [apply compareFn_trans | apply compareFn_other]].
  intros a b. apply compareFn_asc_le.
Qed.

Lemma sorted_desc (f : SortField) (l : list Order.t) :
  StronglySorted (fun a b => val_lt (sortVal f a) (sortVal f b) = false)
                 (JsArray.sort (compareFn f desc) l).
Proof.
  eapply SortFacts.sorted_impl;
    [| apply SortFacts.sort_sorted;
       [apply compareFn_trans | apply compareFn_other]].
  intros a b. apply compareFn_desc_le.
Qed.

Lemma filtered_perm (st : State) (orders : list Order.t) :
  Permutation (filtered st orders) (filterStage st orders).
Proof. apply SortFacts.sort_perm. Qed.

Lemma matches_true_iff (st : State) (o : Order.t) :
  matches st o = true <->
  (search st = ""
   \/ Substring (toLowerCase (search st)) (toLowerCase (Order.customer_name o))
   \/ Substring (toLowerCase (search st)) (toLowerCase (Order.email o))
   \/ Substring (toLowerCase (search st)) (Order.phone_number o))
  /\ (statusFilter st = "all" \/ Order.status o = statusFilter st)
  /\ (dateFilter st = "" \/ Order.pickup_date o = dateFilter st).
Proof.
  unfold matches.
  rewrite !andb_true_iff, !orb_true_iff, JsStringFacts.falsy_toLowerCase,
    !JsStringFacts.falsy_true_iff, !JsStringFacts.includes_true_iff,
    !String.eqb_eq.
  tauto.
Qed.

(** C1, amended. Whatever the order list and the filter inputs, the list the
    order page shows holds exactly the fetched orders that pass three tests
    at once: the search text is empty or, lower-cased, occurs in the
    lower-cased customer name, in the lower-cased e-mail, or in the phone
    number as stored; the status filter is "all" or equals the order's
    status; the pickup-date filter is empty or equals the order's pickup
    date. *)
Theorem filter_sound_complete (st : State) (orders : list Order.t)
  (o : Order.t) :
  In o (filtered st orders) <->
  In o orders
  /\ (search st = ""
      \/ Substring (toLowerCase (search st))
                   (toLowerCase (Order.customer_name o))
      \/ Substring (toLowerCase (search st)) (toLowerCase (Order.email o))
      \/ Substring (toLowerCase (search st)) (Order.phone_number o))
  /\ (statusFilter st = "all" \/ Order.status o = statusFilter st)
  /\ (dateFilter st = "" \/ Order.pickup_date o = dateFilter st).
Proof.
  rewrite <- matches_true_iff, <- filter_In. fold (filterStage st orders).
  split; apply Permutation_in;
    [apply filtered_perm | symmetry; apply filtered_perm].
Qed.

(** C6. The page sorts by any of its five columns, and the sorted list is a
    rearrangement of the filtered one that follows the natural order of the
    column's values: instants as numbers for the created timestamp and the
    pickup date, lower-cased text for the customer name, the text as stored
    for the phone number and the time slot; ascending puts no larger value
    before a smaller one, descending no smaller value before a larger. *)
Theorem sort_follows_field (st : State) (orders : list Order.t) :
  Permutation (filtered st orders) (filterStage st orders)
  /\ match sortDir st with
     | asc => StronglySorted (fieldLe (sortField st)) (filtered st orders)
     | desc =>
         StronglySorted (fun a b => fieldLe (sortField st) b a)
                        (filtered st orders)
     end.
Proof.
  split; [apply filtered_perm|].
  unfold filtered. destruct (sortDir st).
  - eapply SortFacts.sorted_impl; [|apply sorted_asc].
    intros a b; apply fieldLe_val_lt.
  - eapply SortFacts.sorted_impl; [|apply sorted_desc].
    intros a b; apply fieldLe_val_lt.
Qed.

(** A sorted list without repeated values is strictly sorted. *)
Lemma sorted_strict (f : SortField) (R S : Order.t -> Order.t -> Prop)
  (l : list Order.t) :
  (forall a b, R a b -> sortVal f a <> sortVal f b -> S a b) ->
  StronglySorted R l -> NoDup (map (sortVal f) l) -> StronglySorted S l.
Proof.
  intros HRS; induction 1 as [|y l Hl IH Hy]; intros Hnd; [constructor|].
  simpl in Hnd. inversion Hnd as [|? ? Hnotin Hnd']; subst.
  constructor; [now apply IH|].
  rewrite Forall_forall in *. intros b Hb. apply HRS; [now apply Hy|].
  intros E. apply Hnotin. rewrite E. now apply in_map.
Qed.

Lemma desc_is_rev_asc (f : SortField) (l : list Order.t) :
  NoDup (map (sortVal f) l) ->
  JsArray.sort (compareFn f desc) l = rev (JsArray.sort (compareFn f asc) l).
Proof.
  intros Hnd.
  apply SortFacts.sorted_perm_eq
    with (R := fun a b => val_lt (sortVal f b) (sortVal f a) = true).
  - intros a b Hab Hba. apply val_lt_asym in Hab. congruence.
  - eapply (sorted_strict f); [|apply sorted_desc|].
    + intros a b Hab Hne. destruct (val_lt (sortVal f b) (sortVal f a)) eqn:E;
        [reflexivity|]. exfalso; apply Hne. now apply val_lt_connex.
    + eapply Permutation_NoDup; [|exact Hnd].
      apply Permutation_map. symmetry. apply SortFacts.sort_perm.
  - apply (SortFacts.sorted_rev
             (fun a b => val_lt (sortVal f a) (sortVal f b) = true)).
    eapply (sorted_strict f); [|apply sorted_asc|].
    + intros a b Hab Hne. destruct (val_lt (sortVal f a) (sortVal f b)) eqn:E;
        [reflexivity|]. exfalso; apply Hne. now apply val_lt_connex.
    + eapply Permutation_NoDup; [|exact Hnd].
      apply Permutation_map. symmetry. apply SortFacts.sort_perm.
  - rewrite <- Permutation_rev, !SortFacts.sort_perm. reflexivity.
Qed.

(** C4, amended. The sort is stable in both directions: the orders that
    share a sort value stand in the sorted list in the order in which they
    were fetched. When no two of the filtered orders share a sort value,
    sorting them descending gives exactly the reverse of sorting them
    ascending. *)
Theorem sort_stable_and_mirrored (s sf df : string) (f : SortField)
  (p : nat) (orders : list Order.t) :
  let fetched := filterStage (mkState s sf df f asc p) orders in
  let up := filtered (mkState s sf df f asc p) orders in
  let down := filtered (mkState s sf df f desc p) orders in
  (forall o, filter (sameKey f o) up = filter (sameKey f o) fetched)
  /\ (forall o, filter (sameKey f o) down = filter (sameKey f o) fetched)
  /\ (NoDup (map (sortVal f) fetched) -> down = rev up).
Proof.
  cbv zeta. unfold filtered, filterStage; cbn [sortField sortDir search
    statusFilter dateFilter matches].
  repeat split.
  - intros o. apply SortFacts.sort_filter. apply compareFn_sameKey.
  - intros o. apply SortFacts.sort_filter. apply compareFn_sameKey.
  - apply desc_is_rev_asc.
Qed.

(** The earlier page lists the orders exactly as the later one does on
    its two columns. *)
Lemma v1_filtered_eq (st : OrdersV1.State) (orders : list Order.t) :
  OrdersV1.filtered st orders = filtered (OrdersV1.later st) orders.
Proof.
  unfold OrdersV1.filtered, filtered, filterStage. apply SortFacts.sort_ext.
  intros x y. unfold OrdersV1.compareFn, compareFn, OrdersV1.later; simpl.
  destruct (OrdersV1.sortField st), (OrdersV1.sortDir st); simpl;
    match goal with
    | |- context [if (?a <? ?b)%Z then _ else _] =>
        destruct (Z.ltb_spec a b), (Z.ltb_spec b a)
    end;
    first [ apply Z.ltb_lt; lia | apply Z.ltb_ge; lia ].
Qed.

Lemma paginated_eq (i : nat) (l : list Order.t) :
  paginated i l = firstn 10 (skipn (i * 10) l).
Proof.
  unfold paginated, JsArray.slice, PAGE_SIZE. f_equal. lia.
Qed.

Lemma totalPages_bounds (l : list Order.t) :
  length l <= 10 * totalPages l < length l + 10.
Proof.
  unfold totalPages, JsArray.ceil_div, PAGE_SIZE.
  pose proof (Nat.div_mod_eq (length l) 10) as E.
  pose proof (Nat.mod_upper_bound (length l) 10 ltac:(lia)) as B.
  destruct (length l mod 10 =? 0)%nat eqn:M;
    [apply Nat.eqb_eq in M | apply Nat.eqb_neq in M]; lia.
Qed.

Lemma pages_concat (n : nat) (l : list Order.t) :
  length l <= 10 * n ->
  concat (map (fun i => firstn 10 (skipn (i * 10) l)) (seq 0 n)) = l.
Proof.
  revert l; induction n as [|n IH]; intros l Hl.
  - destruct l; [reflexivity | simpl in Hl; lia].
  - cbn [seq map concat]. rewrite <- seq_shift, map_map.
    rewrite (map_ext _ (fun i => firstn 10 (skipn (i * 10) (skipn 10 l)))).
    + rewrite IH by (rewrite length_skipn; lia).
      change (0 * 10) with 0. cbn [skipn]. apply firstn_skipn.
    + intros i. rewrite skipn_skipn. do 2 f_equal. lia.
Qed.

(** C3. A filtered and sorted list of [N] orders is shown on [ceil(N/10)]
    pages; position [j] of page [i] holds the order at position [10 i + j]
    of the list for [j] below 10 and nothing beyond, so every page but the
    last holds ten orders; the pages laid end to end, first to last, are the
    list itself. *)
Theorem pagination_partitions (l : list Order.t) :
  totalPages l = (length l + 9) / 10
  /\ (length l <= 10 * totalPages l < length l + 10)
  /\ (forall i j,
        nth_error (paginated i l) j
        = if (j <? 10)%nat then nth_error l (i * 10 + j) else None)
  /\ (forall i, i + 1 < totalPages l -> length (paginated i l) = 10)
  /\ concat (allPages l) = l.
Proof.
  pose proof (totalPages_bounds l) as B.
  split.
  { pose proof (Nat.div_mod_eq (length l + 9) 10) as E.
    pose proof (Nat.mod_upper_bound (length l + 9) 10 ltac:(lia)) as M. lia. }
  repeat split; try apply B.
  - intros i j. rewrite paginated_eq, nth_error_firstn.
    destruct (j <? 10)%nat; [apply nth_error_skipn | reflexivity].
  - intros i Hi. rewrite paginated_eq, length_firstn, length_skipn. lia.
  - unfold allPages.
    rewrite (map_ext _ (fun i => firstn 10 (skipn (i * 10) l)))
      by (intros; apply paginated_eq).
    apply pages_concat, B.
Qed.

Lemma allPages_concat (l : list Order.t) : concat (allPages l) = l.
Proof.
  unfold allPages.
  rewrite (map_ext _ (fun i => firstn 10 (skipn (i * 10) l)))
    by (intros; apply paginated_eq).
  apply pages_concat, totalPages_bounds.
Qed.

(** C9. Both documents carry the list on screen, row for row. The PDF has
    one table; its body has one row per order of the filtered and sorted
    list, in the list's order, with the cells name, e-mail, phone, pickup
    date, slot, status and creation date of that order; these are the rows
    of all the pages of the table, first page to last. Its text block gives
    the generation time and the number of orders in decimal digits, which
    reads back as the length of the list. The print document, when its
    window opens, has between its fixed opening and closing one [<tr>] per
    order, in the same order and with the same seven fields, behind a
    paragraph with the generation time and the number of orders, which reads
    back as the length of the list; with no window nothing is written. *)
Theorem exports_render_view (st : State) (orders : list Order.t) (now : Z) :
  let view := filtered st orders in
  let decimal := fun n : nat => NilZero.string_of_uint (Nat.to_uint n) in
  let cells := fun o : Order.t =>
    [ Order.customer_name o; Order.email o; Order.phone_number o;
      Order.pickup_date o; Order.time_slot o; Order.status o;
      format (getTime (Order.created_at o)) "MMM d, yyyy" ] in
  let tr := fun o : Order.t =>
    "<tr><td>" ++ Order.customer_name o ++ "</td><td>" ++ Order.email o
    ++ "</td><td>" ++ Order.phone_number o ++ "</td><td>"
    ++ Order.pickup_date o ++ "</td><td>" ++ Order.time_slot o
    ++ "</td><td>" ++ Order.status o ++ "</td><td>"
    ++ format (getTime (Order.created_at o)) "MMM d, yyyy" ++ "</td></tr>" in
  pdfTables (exportPDF now view) = [map cells view]
  /\ map cells view = map cells (concat (allPages view))
  /\ (forall i,
        nth_error (map cells view) i = option_map cells (nth_error view i))
  /\ pdfTexts (exportPDF now view)
     = [ "Vinayaka Pooja Flowers";
         "Generated: " ++ format now "PPpp";
         decimal (length view) ++ " orders" ]
  /\ parseInt (decimal (length view) ++ " orders") = Some (length view)
  /\ handlePrint true now view
     = Some ("<!DOCTYPE html><html><head><title>Vinayaka Orders</title><style>body{font-family:sans-serif;padding:20px}h1{color:#5c3310}table{width:100%;border-collapse:collapse;margin-top:12px}th,td{border:1px solid #ddd;padding:6px 8px;text-align:left;font-size:12px}th{background:#d97706;color:#fff}</style></head><body><h1>Vinayaka Pooja Flowers</h1><p>"
             ++ format now "PPpp" ++ " — " ++ decimal (length view)
             ++ " orders</p><table><tr><th>Customer</th><th>Email</th><th>Phone</th><th>Pickup</th><th>Slot</th><th>Status</th><th>Created</th></tr>"
             ++ String.concat "" (map tr view)
             ++ "</table><script>window.print();window.close();</script></body></html>")
  /\ parseInt (decimal (length view) ++ " orders</p>") = Some (length view)
  /\ (forall i,
        nth_error (map tr view) i = option_map tr (nth_error view i))
  /\ handlePrint false now view = None.
Proof.
  cbv zeta. repeat split; try reflexivity.
  - now rewrite allPages_concat.
  - intros i. apply nth_error_map.
  - apply JsNumberFacts.decimal_read_back. reflexivity.
  - apply JsNumberFacts.decimal_read_back. reflexivity.
  - intros i. apply nth_error_map.
Qed.

End WithDates.

(** C1 as stated fails: the typed text "EXT" occurs in the stored phone
    number "555 EXT 2", the other two filters are off, and yet the page
    drops the order, because the phone is searched for "ext". *)
Lemma search_phone_as_typed_counterexample :
  In Examples.ext_order [Examples.ext_order]
  /\ spec_matchesSearch (search Examples.ext_search) Examples.ext_order = true
  /\ statusFilter Examples.ext_search = "all"
  /\ dateFilter Examples.ext_search = ""
  /\ ~ In Examples.ext_order
         (@filtered RefClock.clock Examples.ext_search [Examples.ext_order]).
Proof.
  repeat split; try reflexivity; [now left | vm_compute; tauto].
Qed.

(** C4 as stated fails: two orders of the same time slot come out in
    fetched order whichever the direction, so the descending list is not the
    ascending one reversed. *)
Lemma reversal_with_ties_counterexample :
  @filtered RefClock.clock (Examples.by_slot desc)
            [Examples.morning_a; Examples.morning_b]
  <> rev (@filtered RefClock.clock (Examples.by_slot asc)
                    [Examples.morning_a; Examples.morning_b]).
Proof. vm_compute. discriminate. Qed.

(** The mirror image at work on two orders of different time slots. *)
Lemma sort_stable_and_mirrored_witness :
  @filtered RefClock.clock (Examples.by_slot desc)
            [Examples.morning_a; Examples.evening_c]
  = rev (@filtered RefClock.clock (Examples.by_slot asc)
                   [Examples.morning_a; Examples.evening_c]).
Proof.
  apply (@sort_stable_and_mirrored RefClock.clock "" "all" "" time_slot 0
           [Examples.morning_a; Examples.evening_c]).
  vm_compute. repeat constructor; simpl; intuition discriminate.
Defined.

(** The first of the three pages of twenty-five orders is full. *)
Lemma pagination_partitions_witness :
  length (paginated 0 Examples.twenty_five) = 10.
Proof.
  apply (pagination_partitions Examples.twenty_five). vm_compute. lia.
Defined.

End OrdersFacts.

(** ** Maps *)

Module JsMapFacts.

Section Facts.
Context {V : Type}.
Implicit Types (m : list (string * V)) (k : string) (v : V).

Lemma get_set_same k v m : JsMap.get k (JsMap.set k v m) = Some v.
Proof.
  induction m as [|[k' v'] m IH]; simpl.
  - now rewrite String.eqb_refl.
  - destruct (k' =? k) eqn:E; simpl.
    + now rewrite String.eqb_refl.
    + now rewrite E.
Qed.

Lemma get_set_other k k' v m :
  k <> k' -> JsMap.get k' (JsMap.set k v m) = JsMap.get k' m.
Proof.
  intros Hne. induction m as [|[k0 v0] m IH]; simpl.
  - apply String.eqb_neq in Hne. now rewrite Hne.
  - destruct (k0 =? k) eqn:E; simpl.
    + apply String.eqb_eq in E; subst k0.
      apply String.eqb_neq in Hne. now rewrite Hne.
    + now rewrite IH.
Qed.

Lemma get_none_iff k m : JsMap.get k m = None <-> ~ In k (map fst m).
Proof.
  induction m as [|[k' v'] m IH]; simpl; [tauto|].
  destruct (k' =? k) eqn:E.
  - apply String.eqb_eq in E. split; [discriminate | tauto].
  - apply String.eqb_neq in E. rewrite IH. tauto.
Qed.

Lemma set_absent k v m : JsMap.get k m = None -> JsMap.set k v m = (m ++ [(k, v)])%list.
Proof.
  induction m as [|[k' v'] m IH]; simpl; [reflexivity|].
  destruct (k' =? k); [discriminate|]. intros Hm. now rewrite IH.
Qed.

Lemma keys_set_present k v m :
  JsMap.get k m <> None -> map fst (JsMap.set k v m) = map fst m.
Proof.
  induction m as [|[k' v'] m IH]; simpl; [congruence|].
  destruct (k' =? k) eqn:E; simpl.
  - apply String.eqb_eq in E. now subst.
  - intros Hm. now rewrite IH.
Qed.

Lemma in_get k v m : NoDup (map fst m) -> In (k, v) m -> JsMap.get k m = Some v.
Proof.
  induction m as [|[k' v'] m IH]; simpl; [tauto|].
  intros Hnd [Heq|Hin].
  - injection Heq as -> ->. now rewrite String.eqb_refl.
  - inversion Hnd as [|? ? Hnotin Hnd']; subst.
    destruct (k' =? k) eqn:E; [|now apply IH].
    apply String.eqb_eq in E; subst k'. exfalso; apply Hnotin.
    change k with (fst (k, v)). now apply in_map.
Qed.

Lemma get_in k v m : JsMap.get k m = Some v -> In (k, v) m.
Proof.
  induction m as [|[k' v'] m IH]; simpl; [discriminate|].
  destruct (k' =? k) eqn:E.
  - apply String.eqb_eq in E. intros [= ->]. left; now subst.
  - intros Hm. right; now apply IH.
Qed.

End Facts.

End JsMapFacts.

(** ** The customer roll-up *)

Module CustomerFacts.

Import CustomerEmails.

Lemma find_app {A : Type} (p : A -> bool) (l1 l2 : list A) :
  find p (l1 ++ l2)
  = match find p l1 with Some x => Some x | None => find p l2 end.
Proof.
  induction l1 as [|x l1 IH]; simpl; [reflexivity|].
  destruct (p x); [reflexivity | exact IH].
Qed.

Lemma ordersOf_snoc_same (o : Order.t) (l : list Order.t) :
  ordersOf (Order.email o) (l ++ [o]) = (ordersOf (Order.email o) l ++ [o])%list.
Proof.
  unfold ordersOf. rewrite filter_app. simpl. now rewrite String.eqb_refl.
Qed.

Lemma ordersOf_snoc_other (e : string) (o : Order.t) (l : list Order.t) :
  Order.email o <> e -> ordersOf e (l ++ [o]) = ordersOf e l.
Proof.
  intros Hne. unfold ordersOf. rewrite filter_app. simpl.
  apply String.eqb_neq in Hne. rewrite Hne. apply app_nil_r.
Qed.

Lemma ordersOf_absent (e : string) (l : list Order.t) :
  ~ In e (map Order.email l) -> ordersOf e l = [].
Proof.
  induction l as [|o l IH]; simpl; [reflexivity|]. intros Hn.
  destruct (Order.email o =? e) eqn:E.
  - apply String.eqb_eq in E. tauto.
  - apply IH. tauto.
Qed.

Lemma ordersOf_email (e : string) (o : Order.t) (l : list Order.t) :
  In o (ordersOf e l) -> Order.email o = e /\ In o l.
Proof.
  unfold ordersOf. rewrite filter_In, String.eqb_eq. tauto.
Qed.

(** The first order of a customer. *)
Lemma summary_first (o : Order.t) (l : list Order.t) :
  ~ In (Order.email o) (map Order.email l) ->
  Summary (l ++ [o]) (Order.email o)
          (Customer.mk (Order.email o) (Order.customer_name o) 1
                       (Order.created_at o)).
Proof.
  intros Hn. unfold Summary. cbv zeta.
  rewrite ordersOf_snoc_same, (ordersOf_absent _ _ Hn). simpl.
  repeat split; [now left | |].
  - intros o' [<-|[]]. apply StrOrder.ltb_irrefl.
  - exists o. now rewrite String.eqb_refl.
Qed.

(** One more order of a known customer. *)
Lemma summary_next (o : Order.t) (l : list Order.t) (c : Customer.t) :
  Summary l (Order.email o) c ->
  Summary (l ++ [o]) (Order.email o)
    (if String.ltb (Customer.lastDate c) (Order.created_at o)
     then Customer.mk (Customer.email c) (Order.customer_name o)
                      (S (Customer.count c)) (Order.created_at o)
     else Customer.mk (Customer.email c) (Customer.name c)
                      (S (Customer.count c)) (Customer.lastDate c)).
Proof.
  unfold Summary. cbv zeta. rewrite ordersOf_snoc_same.
  set (mine := ordersOf (Order.email o) l).
  intros (He & Hc & Hin & Hmax & o0 & Hfind & Hname).
  destruct (String.ltb (Customer.lastDate c) (Order.created_at o)) eqn:Hlt;
    cbn [Customer.email Customer.name Customer.count Customer.lastDate].
  - repeat split.
    + exact He.
    + rewrite length_app, Hc. simpl. lia.
    + rewrite map_app, in_app_iff. right; now left.
    + intros o' Ho'. apply in_app_iff in Ho' as [Ho'|[<-|[]]].
      * destruct (String.ltb (Order.created_at o) (Order.created_at o')) eqn:E;
          [|reflexivity].
        pose proof (StrOrder.ltb_trans _ _ _ Hlt E) as T.
        rewrite (Hmax o' Ho') in T. discriminate.
      * apply StrOrder.ltb_irrefl.
    + exists o. split; [|reflexivity]. rewrite find_app.
      destruct (find (fun o2 => Order.created_at o2 =? Order.created_at o)
                     mine) as [o1|] eqn:F.
      * apply find_some in F as [Hin1 E1]. apply String.eqb_eq in E1.
        specialize (Hmax o1 Hin1). rewrite E1 in Hmax. congruence.
      * simpl. now rewrite String.eqb_refl.
  - repeat split.
    + exact He.
    + rewrite length_app, Hc. simpl. lia.
    + rewrite map_app, in_app_iff. now left.
    + intros o' Ho'. apply in_app_iff in Ho' as [Ho'|[<-|[]]];
        [now apply Hmax | exact Hlt].
    + exists o0. split; [|exact Hname]. rewrite find_app. now rewrite Hfind.
Qed.

Lemma summary_other (e : string) (o : Order.t) (l : list Order.t)
  (c : Customer.t) :
  Order.email o <> e -> Summary l e c -> Summary (l ++ [o]) e c.
Proof.
  intros Hne. unfold Summary. cbv zeta. now rewrite ordersOf_snoc_other.
Qed.

Lemma visit_agrees (m : list (string * Customer.t)) (l : list Order.t)
  (o : Order.t) :
  Agrees m l -> Agrees (visit m o) (l ++ [o]).
Proof.
  intros [Hnd Hall]. unfold visit.
  pose proof (Hall (Order.email o)) as Hk.
  assert (Hrest : forall v e, Order.email o <> e ->
            match JsMap.get e (JsMap.set (Order.email o) v m) with
            | Some c => Summary (l ++ [o]) e c
            | None => ~ In e (map Order.email (l ++ [o]))
            end).
  { intros v e Hne. rewrite JsMapFacts.get_set_other by exact Hne.
    specialize (Hall e). destruct (JsMap.get e m) as [c|].
    - now apply summary_other.
    - rewrite map_app, in_app_iff. simpl. tauto. }
  destruct (JsMap.get (Order.email o) m) as [existing|] eqn:G; split.
  - rewrite JsMapFacts.keys_set_present by congruence. exact Hnd.
  - intros e. destruct (string_dec (Order.email o) e) as [<-|Hne];
      [|now apply Hrest].
    rewrite JsMapFacts.get_set_same. now apply summary_next.
  - rewrite JsMapFacts.set_absent by exact G.
    rewrite map_app. simpl.
    eapply Permutation_NoDup; [apply Permutation_cons_append|].
    constructor; [now apply JsMapFacts.get_none_iff | exact Hnd].
  - intros e. destruct (string_dec (Order.email o) e) as [<-|Hne];
      [|now apply Hrest].
    rewrite JsMapFacts.get_set_same. now apply summary_first.
Qed.

Lemma aggregate_snoc (l : list Order.t) (o : Order.t) :
  aggregate (l ++ [o]) = visit (aggregate l) o.
Proof. unfold aggregate. now rewrite fold_left_app. Qed.

Lemma aggregate_agrees (orders : list Order.t) :
  Agrees (aggregate orders) orders.
Proof.
  induction orders as [|o l IH] using rev_ind.
  - split; [constructor | intros e; simpl; tauto].
  - rewrite aggregate_snoc. now apply visit_agrees.
Qed.

(** Every entry of the map is filed under its own e-mail. *)
Lemma aggregate_keys (orders : list Order.t) :
  map Customer.email (customers orders) = map fst (aggregate orders).
Proof.
  destruct (aggregate_agrees orders) as [Hnd Hall].
  unfold customers, JsMap.values. rewrite map_map.
  apply map_ext_in. intros [k c] Hin. simpl.
  apply JsMapFacts.in_get in Hin; [|exact Hnd].
  specialize (Hall k). rewrite Hin in Hall. apply Hall.
Qed.

Lemma aggregate_has (orders : list Order.t) (e : string) :
  JsMap.get e (aggregate orders) = None <-> ~ In e (map Order.email orders).
Proof.
  destruct (aggregate_agrees orders) as [_ Hall]. specialize (Hall e).
  destruct (JsMap.get e (aggregate orders)) as [c|]; [|tauto].
  split; [discriminate|]. intros Hn. exfalso.
  destruct Hall as (_ & _ & Hin & _).
  rewrite (ordersOf_absent _ _ Hn) in Hin. exact Hin.
Qed.

(** C2. The roll-up has exactly one row per distinct e-mail of the order
    set. The row of an e-mail counts the orders placed under it, its
    [lastDate] is the greatest creation timestamp among them in the order of
    strings, and its name is the customer name on the order that bears that
    timestamp (the first fetched one, should several bear it). *)
Theorem customers_one_row_per_email (orders : list Order.t) :
  let rows := customers orders in
  NoDup (map Customer.email rows)
  /\ (forall e, In e (map Customer.email rows) <-> In e (map Order.email orders))
  /\ length rows = length (nodup string_dec (map Order.email orders))
  /\ (forall c, In c rows ->
        let mine := ordersOf (Customer.email c) orders in
        Customer.count c = length mine
        /\ In (Customer.lastDate c) (map Order.created_at mine)
        /\ (forall o, In o mine ->
              String.leb (Order.created_at o) (Customer.lastDate c) = true)
        /\ exists o,
             find (fun o => Order.created_at o =? Customer.lastDate c) mine
             = Some o
             /\ Customer.name c = Order.customer_name o).
Proof.
  cbv zeta. pose proof (aggregate_agrees orders) as [Hnd Hall].
  assert (Hset : forall e, In e (map Customer.email (customers orders))
                           <-> In e (map Order.email orders)).
  { intros e. rewrite aggregate_keys. pose proof (aggregate_has orders e) as Hh.
    pose proof (JsMapFacts.get_none_iff e (aggregate orders)) as Hg.
    destruct (in_dec string_dec e (map Order.email orders)),
      (in_dec string_dec e (map fst (aggregate orders))); tauto. }
  assert (Hnd' : NoDup (map Customer.email (customers orders)))
    by (now rewrite aggregate_keys).
  split; [exact Hnd' | split; [exact Hset | split]].
  - rewrite <- (length_map Customer.email). apply Permutation_length.
    apply NoDup_Permutation; [exact Hnd' | apply NoDup_nodup|].
    intros e. rewrite nodup_In. apply Hset.
  - intros c Hc. apply in_map_iff in Hc as [[k c'] [<- Hin]]. simpl.
    apply JsMapFacts.in_get in Hin; [|exact Hnd].
    specialize (Hall k). rewrite Hin in Hall.
    destruct Hall as (He & Hcount & Hlast & Hmax & Hname). rewrite He.
    repeat split; try assumption.
    intros o Ho. apply StrOrder.leb_ltb. now apply Hmax.
Qed.

(** *** The variant with placeholder customers *)

Lemma get_app (k : string) (m m' : list (string * Customer.t)) :
  JsMap.get k (m ++ m')
  = match JsMap.get k m with Some v => Some v | None => JsMap.get k m' end.
Proof.
  induction m as [|[k' v'] m IH]; simpl; [reflexivity|].
  destruct (k' =? k); [reflexivity | exact IH].
Qed.

Lemma addDummy_present (d : Customer.t) (m : list (string * Customer.t)) :
  JsMap.has (Customer.email d) m = true -> CustomerEmailsDummy.addDummy m d = m.
Proof. unfold CustomerEmailsDummy.addDummy. now intros ->. Qed.

Lemma addDummy_absent (d : Customer.t) (m : list (string * Customer.t)) :
  JsMap.has (Customer.email d) m = false ->
  CustomerEmailsDummy.addDummy m d = (m ++ [(Customer.email d, d)])%list.
Proof.
  unfold CustomerEmailsDummy.addDummy. intros Hh. rewrite Hh. simpl.
  apply JsMapFacts.set_absent. unfold JsMap.has in Hh.
  now destruct (JsMap.get (Customer.email d) m).
Qed.

Lemma addDummy_fold (ds : list Customer.t) (m : list (string * Customer.t)) :
  NoDup (map Customer.email ds) ->
  JsMap.values (fold_left CustomerEmailsDummy.addDummy ds m)
  = (JsMap.values m
     ++ filter (fun d => negb (JsMap.has (Customer.email d) m)) ds)%list.
Proof.
  revert m; induction ds as [|d ds IH]; intros m Hnd; cbn [fold_left filter].
  - now rewrite app_nil_r.
  - inversion Hnd as [|? ? Hnotin Hnd']; subst.
    destruct (JsMap.has (Customer.email d) m) eqn:Hh; cbn [negb].
    + rewrite addDummy_present by exact Hh. now apply IH.
    + rewrite addDummy_absent by exact Hh. rewrite IH by exact Hnd'.
      unfold JsMap.values. rewrite map_app, <- app_assoc. simpl.
      do 2 f_equal. apply filter_ext_in. intros d' Hd'.
      unfold JsMap.has. rewrite get_app. simpl.
      destruct (JsMap.get (Customer.email d') m); [reflexivity|].
      destruct (Customer.email d =? Customer.email d') eqn:E; [|reflexivity].
      apply String.eqb_eq in E. exfalso; apply Hnotin. rewrite E.
      now apply in_map.
Qed.

Lemma aggregate_has_existsb (orders : list Order.t) (e : string) :
  JsMap.has e (aggregate orders)
  = existsb (String.eqb e) (map Order.email orders).
Proof.
  pose proof (aggregate_has orders e) as Hh. unfold JsMap.has.
  destruct (existsb (String.eqb e) (map Order.email orders)) eqn:Ex.
  - apply existsb_exists in Ex as [e' [Hin E]]. apply String.eqb_eq in E.
    subst e'. destruct (JsMap.get e (aggregate orders)); [reflexivity|tauto].
  - destruct (JsMap.get e (aggregate orders)); [|reflexivity].
    assert (Hn : ~ In e (map Order.email orders)).
    { intros Hin. assert (existsb (String.eqb e) (map Order.email orders) = true)
        by (apply existsb_exists; exists e; split;
            [exact Hin | apply String.eqb_refl]). congruence. }
    apply Hh in Hn. discriminate.
Qed.

Lemma dummy_emails_distinct :
  NoDup (map Customer.email CustomerEmailsDummy.DUMMY_CUSTOMERS).
Proof.
  replace (map Customer.email CustomerEmailsDummy.DUMMY_CUSTOMERS)
    with (nodup string_dec
            (map Customer.email CustomerEmailsDummy.DUMMY_CUSTOMERS))
    by (vm_compute; reflexivity).
  apply NoDup_nodup.
Qed.

(** C10. In the view that mixes in the placeholder customers the rows of
    the real customers come first and are the very rows the roll-up computes
    from the fetched orders alone; behind them stand the placeholders whose
    e-mail occurs in no fetched order, and no other placeholder. So the rows
    under an e-mail that occurs in a fetched order are the roll-up's rows
    for it, whatever the placeholder list says. *)
Theorem dummy_rows_only_for_new_emails (orders : list Order.t) :
  CustomerEmailsDummy.customers orders
  = (customers orders
     ++ filter (fun d => negb (existsb (String.eqb (Customer.email d))
                                       (map Order.email orders)))
               CustomerEmailsDummy.DUMMY_CUSTOMERS)%list
  /\ (forall e, In e (map Order.email orders) ->
        filter (fun c => Customer.email c =? e)
               (CustomerEmailsDummy.customers orders)
        = filter (fun c => Customer.email c =? e) (customers orders)).
Proof.
  assert (E : CustomerEmailsDummy.customers orders
    = (customers orders
       ++ filter (fun d => negb (existsb (String.eqb (Customer.email d))
                                         (map Order.email orders)))
                 CustomerEmailsDummy.DUMMY_CUSTOMERS)%list).
  { unfold CustomerEmailsDummy.customers, CustomerEmailsDummy.merge.
    fold (aggregate orders).
    rewrite addDummy_fold by apply dummy_emails_distinct.
    unfold customers. f_equal. apply filter_ext. intros d.
    now rewrite aggregate_has_existsb. }
  split; [exact E|].
  intros e He. rewrite E, filter_app.
  rewrite <- (app_nil_r (filter _ (customers orders))) at 2. f_equal.
  match goal with |- ?l = [] => destruct l as [|d rest] eqn:F end;
    [reflexivity|].
  assert (Hd : In d (d :: rest)) by now left.
  rewrite <- F in Hd. rewrite !filter_In, String.eqb_eq, negb_true_iff in Hd.
  destruct Hd as [[_ Hex] Hde]. exfalso.
  assert (existsb (String.eqb (Customer.email d)) (map Order.email orders)
          = true); [|congruence].
  apply existsb_exists. exists e. split; [exact He|].
  rewrite Hde. apply String.eqb_refl.
Qed.

(** *** The filter, the clipboard and the CSV file *)

Lemma customer_matches_true_iff (st : State) (c : Customer.t) :
  matches st c = true <->
  (search st = ""
   \/ Substring (toLowerCase (search st)) (toLowerCase (Customer.email c))
   \/ Substring (toLowerCase (search st)) (toLowerCase (Customer.name c)))
  /\ (minOrders st = "all"
      \/ exists n, parseInt (minOrders st) = Some n /\ n <= Customer.count c)
  /\ (dateFrom st = "" \/ String.leb (dateFrom st) (Customer.lastDate c) = true)
  /\ (dateTo st = ""
      \/ String.leb (Customer.lastDate c) (dateTo st ++ "T23:59:59") = true).
Proof.
  unfold matches, geb, leb.
  rewrite !andb_true_iff, !orb_true_iff, JsStringFacts.falsy_toLowerCase,
    !JsStringFacts.falsy_true_iff, !JsStringFacts.includes_true_iff,
    !String.eqb_eq, !negb_true_iff, <- !StrOrder.leb_ltb.
  assert (Hmin : match parseInt (minOrders st) with
                 | Some n => (n <=? Customer.count c)%nat
                 | None => false
                 end = true
                 <-> exists n, parseInt (minOrders st) = Some n
                               /\ n <= Customer.count c).
  { destruct (parseInt (minOrders st)) as [n|].
    - rewrite Nat.leb_le. split; [intros Hn; now exists n|].
      now intros [n' [[= <-] Hn]].
    - split; [discriminate | now intros [n' [? _]]]. }
  rewrite Hmin. tauto.
Qed.

(** The thresholds the page offers. *)
Lemma thresholds_parse :
  parseInt "2" = Some 2 /\ parseInt "5" = Some 5 /\ parseInt "10" = Some 10.
Proof. repeat split. Qed.

(** A text is never below one of its own prefixes: every timestamp of the
    from-day passes the lower bound. *)
Lemma prefix_not_above (d r : string) : String.ltb (d ++ r) d = false.
Proof.
  unfold String.ltb. induction d as [|c d IH]; simpl.
  - now destruct r.
  - replace (Ascii.compare c c) with Eq; [exact IH|].
    symmetry. now apply Ascii_as_OT.cmp_eq.
Qed.

(** A text lies below each of its proper extensions. *)
Lemma proper_prefix_below (d r : string) :
  r <> "" -> String.ltb d (d ++ r) = true.
Proof.
  intros Hr. unfold String.ltb. induction d as [|c d IH]; simpl.
  - destruct r; [congruence | reflexivity].
  - replace (Ascii.compare c c) with Eq; [exact IH|].
    symmetry. now apply Ascii_as_OT.cmp_eq.
Qed.

(** Whatever follows the seconds of a timestamp of the to-day's last
    second, fraction or zone, the upper bound turns the row away. *)
Lemma to_day_last_second_rejected (st : State) (c : Customer.t)
  (rest : string) :
  dateTo st <> "" -> rest <> "" ->
  Customer.lastDate c = (dateTo st ++ "T23:59:59") ++ rest ->
  matches st c = false.
Proof.
  intros Hto Hrest Hlast. unfold matches, leb.
  rewrite Hlast, proper_prefix_below by exact Hrest.
  destruct (dateTo st); [congruence|]. simpl.
  now rewrite !andb_false_r.
Qed.

(** C7, the code at the failing input: a customer whose last order was
    created in the closing second of the to-day lies on that day, and the
    filter drops the row all the same. *)
Lemma last_second_of_to_day_dropped :
  onDay (dateTo Examples.until_feb_9)
        (Customer.lastDate Examples.late_customer) = true
  /\ filtered Examples.until_feb_9 [Examples.late_customer] = [].
Proof. split; reflexivity. Qed.

(** C2 on the scenario of the specification. *)
Lemma customers_scenario :
  customers [Examples.old_name; Examples.new_name] = [Examples.new_name_row].
Proof. reflexivity. Qed.

Lemma customers_one_row_per_email_witness :
  Customer.count Examples.new_name_row
  = length (ordersOf (Customer.email Examples.new_name_row)
                     [Examples.old_name; Examples.new_name]).
Proof.
  apply (customers_one_row_per_email [Examples.old_name; Examples.new_name]).
  simpl. now left.
Defined.

(** The reader of a CSV line, field by field. *)
Lemma fields_plain_then_comma (f rest : string) :
  hasChar ","%char f = false -> hasChar "034"%char f = false ->
  csvFields false (f ++ String ","%char rest) = f :: csvFields false rest.
Proof.
  induction f as [|c f IH]; [reflexivity|]. cbn [hasChar append csvFields].
  destruct (Ascii.eqb c ","%char); [discriminate|].
  destruct (Ascii.eqb c "034"%char); [discriminate|].
  cbn [orb andb]. intros Hc Hq. now rewrite (IH Hc Hq).
Qed.

Lemma fields_quoted_then_comma (f rest : string) :
  hasChar "034"%char f = false ->
  csvFields true (f ++ String "034"%char (String ","%char rest))
  = f :: csvFields false rest.
Proof.
  induction f as [|c f IH]; [reflexivity|]. cbn [hasChar append csvFields].
  destruct (Ascii.eqb c "034"%char); [discriminate|].
  cbn [orb negb]. rewrite andb_false_r. intros Hq. now rewrite (IH Hq).
Qed.

Lemma fields_plain_last (f : string) :
  hasChar ","%char f = false -> hasChar "034"%char f = false ->
  csvFields false f = [f].
Proof.
  induction f as [|c f IH]; [reflexivity|]. cbn [hasChar csvFields].
  destruct (Ascii.eqb c ","%char); [discriminate|].
  destruct (Ascii.eqb c "034"%char); [discriminate|].
  cbn [orb andb]. intros Hc Hq. now rewrite (IH Hc Hq).
Qed.

Lemma concat_length (sep : string) (xs : list string) :
  String.length (String.concat sep xs)
  = list_sum (map String.length xs)
    + String.length sep * (length xs - 1).
Proof.
  induction xs as [|x xs IH]; [simpl; lia|].
  destruct xs as [|y xs]; [simpl; lia|].
  change (String.concat sep (x :: y :: xs))
    with (x ++ sep ++ String.concat sep (y :: xs)).
  rewrite !JsNumberFacts.length_append, IH. cbn [map list_sum length].
  simpl list_sum. lia.
Qed.

Section WithDates.
Context `{DateFns}.

(** C8. The CSV file is the header line
    [Email,Customer Name,Total Orders,Last Order Date], a line feed, and
    then one line per filtered row, in list order, with a line feed between
    each two. A line is the e-mail, a comma, the name between two double
    quotes, a comma, the order count in decimal digits, a comma and the last
    order date printed as [yyyy-MM-dd]. Read as CSV, such a line gives back
    the four fields, the name whole even when it holds commas, as long as
    the e-mail and the printed date hold no comma and none of the three
    texts a double quote; the count field reads back as the count. Copy-all
    is the e-mails of the filtered rows in list order with a comma and a
    space between each two: its length is that of the e-mails plus two
    characters per gap. *)
Theorem csv_and_copy_follow_rows (rows : list Customer.t) :
  let decimal := fun n : nat => NilZero.string_of_uint (Nat.to_uint n) in
  let date := fun c : Customer.t =>
    format (getTime (Customer.lastDate c)) "yyyy-MM-dd" in
  let line := fun c : Customer.t =>
    Customer.email c
    ++ String ","%char (String "034"%char (Customer.name c
    ++ String "034"%char (String ","%char (decimal (Customer.count c)
    ++ String ","%char (date c))))) in
  exportCSV rows
  = "Email,Customer Name,Total Orders,Last Order Date"
    ++ String "010"%char
         (String.concat (String "010"%char "") (map line rows))
  /\ (forall c,
        hasChar ","%char (Customer.email c) = false ->
        hasChar "034"%char (Customer.email c) = false ->
        hasChar "034"%char (Customer.name c) = false ->
        hasChar ","%char (date c) = false ->
        hasChar "034"%char (date c) = false ->
        csvFields false (line c)
        = [ Customer.email c; Customer.name c;
            decimal (Customer.count c); date c ])
  /\ (forall c, parseInt (decimal (Customer.count c))
                = Some (Customer.count c))
  /\ copyAll rows
     = String.concat (String ","%char (String " "%char ""))
                     (map Customer.email rows)
  /\ String.length (copyAll rows)
     = list_sum (map (fun c => String.length (Customer.email c)) rows)
       + 2 * (length rows - 1).
Proof.
  cbv zeta. split; [reflexivity | split; [|split; [|split]]].
  - intros c He Heq Hn Hd Hdq.
    rewrite fields_plain_then_comma by assumption.
    cbn [csvFields Ascii.eqb Bool.eqb negb]. 
    rewrite fields_quoted_then_comma by assumption.
    rewrite fields_plain_then_comma
      by (apply JsNumberFacts.decimal_digits_only; reflexivity).
    now rewrite fields_plain_last by assumption.
  - intros c. rewrite <- (JsNumberFacts.append_nil_r (NilZero.string_of_uint _)).
    now apply JsNumberFacts.decimal_read_back.
  - reflexivity.
  - unfold copyAll. rewrite concat_length, map_map, length_map. reflexivity.
Qed.

End WithDates.

(** C8 at work on a name that holds a comma. *)
Lemma csv_and_copy_follow_rows_witness :
  csvFields false (@csvRow RefClock.calendar Examples.comma_name)
  = ["priya.iyer@email.com"; "Iyer, Priya"; "3"; "2026-02-13"].
Proof.
  pose proof (@csv_and_copy_follow_rows RefClock.calendar
                [Examples.comma_name]) as T.
  cbv zeta in T. destruct T as (_ & Hfields & _).
  exact (Hfields Examples.comma_name eq_refl eq_refl eq_refl eq_refl eq_refl).
Defined.

End CustomerFacts.

(** ** The dashboard *)

Module DashboardFacts.

Import Dashboard.

(** The reference clock keeps the two laws of the date library below. *)
Lemma ref_format_day (a b : Z) :
  RefClock.dayStamp a "yyyy-MM-dd" = RefClock.dayStamp b "yyyy-MM-dd"
  <-> RefClock.localDay a = RefClock.localDay b.
Proof.
  unfold RefClock.dayStamp. split; [|now intros ->].
  intros E. apply DecimalZ.to_int_inj.
  apply (f_equal NilEmpty.int_of_string) in E.
  rewrite !NilEmpty.isi in E. now injection E.
Qed.

Lemma ref_subDays_day (t n : Z) :
  RefClock.localDay (t - n * RefClock.msPerDay)
  = (RefClock.localDay t - n)%Z.
Proof.
  unfold RefClock.localDay, RefClock.msPerDay.
  replace (t - n * 86400000)%Z with (t + (- n) * 86400000)%Z by lia.
  rewrite Z.div_add by lia. lia.
Qed.

Section DailySeries.
Context `{DateFns}.

(** The local calendar day of an instant, as a day number. *)
Variable localDay : Z -> Z.

(** Two instants print the same [yyyy-MM-dd] exactly when they fall on the
    same local calendar day. *)
Hypothesis format_day :
  forall a b,
    format a "yyyy-MM-dd" = format b "yyyy-MM-dd" <-> localDay a = localDay b.

(** [subDays] steps back whole calendar days. *)
Hypothesis subDays_day :
  forall t n, localDay (subDays t n) = (localDay t - n)%Z.

Lemma count_on_day (t : Z) (orders : list Order.t) :
  filter (fun o => format (getTime (Order.created_at o)) "yyyy-MM-dd"
                   =? format t "yyyy-MM-dd") orders
  = createdOn localDay (localDay t) orders.
Proof.
  unfold createdOn. apply filter_ext. intros o.
  destruct (Z.eqb_spec (localDay (getTime (Order.created_at o))) (localDay t))
    as [E|E].
  - apply String.eqb_eq. now apply format_day.
  - apply String.eqb_neq. now rewrite format_day.
Qed.

(** C5. Whatever the orders and the viewing instant, the daily series has
    fourteen points. Point [i] (counting from 0) belongs to the calendar day
    [today - 13 + i], so the series runs from thirteen days ago to today,
    oldest first, and its value is the number of orders created on that
    calendar day. With no orders, the fourteen values are all zero. *)
Theorem daily_series_fourteen_days (now : Z) (orders : list Order.t) :
  length (lineData now orders) = 14
  /\ (forall i, i < 14 ->
        nth_error (lineData now orders) i
        = Some (mkPoint
                  (format (subDays now (13 - Z.of_nat i)) "MMM d")
                  (length (createdOn localDay
                             (localDay now - 13 + Z.of_nat i) orders)))
        /\ localDay (subDays now (13 - Z.of_nat i))
           = (localDay now - 13 + Z.of_nat i)%Z)
  /\ map Dashboard.orders (lineData now []) = repeat 0 14.
Proof.
  split; [|split].
  - unfold lineData. now rewrite length_map, length_seq.
  - intros i Hi. rewrite subDays_day. split; [|lia].
    unfold lineData. rewrite nth_error_map, nth_error_seq.
    apply Nat.ltb_lt in Hi. rewrite Hi. cbn [option_map Nat.add].
    rewrite count_on_day, subDays_day. do 4 f_equal. lia.
  - reflexivity.
Qed.

End DailySeries.

(** The series on the reference clock, viewed on 14 February 2026 over
    one order created on 11 February. *)
Lemma daily_series_fourteen_days_witness :
  length (@lineData RefClock.clock
            (RefClock.parse "2026-02-14T10:00:00Z") [Examples.morning_a]) = 14.
Proof.
  apply (@daily_series_fourteen_days RefClock.clock RefClock.localDay
           ref_format_day ref_subDays_day).
Defined.

End DashboardFacts.

(** * More of the order page *)

Module OrdersMore.

Import Orders.

Lemma append_assoc (a b c : string) : (a ++ b) ++ c = a ++ (b ++ c).
Proof. induction a as [|x a IH]; simpl; [reflexivity | now rewrite IH]. Qed.

Lemma substring_trans (a b c : string) :
  Substring a b -> Substring b c -> Substring a c.
Proof.
  intros [p1 [q1 ->]] [p2 [q2 ->]]. exists (p2 ++ p1), (q1 ++ q2).
  now rewrite !append_assoc.
Qed.

Lemma substring_of_empty (q : string) : Substring q "" -> q = "".
Proof.
  intros [pre [post E]]. destruct pre; [|discriminate].
  destruct q; [reflexivity | discriminate].
Qed.

(** What contains a text contains every text that occurs in it. *)
Lemma includes_narrow (q0 q x : string) :
  Substring q0 q -> includes x q = true -> includes x q0 = true.
Proof.
  rewrite !JsStringFacts.includes_true_iff. intros H0 Hq.
  now apply substring_trans with q.
Qed.

Lemma falsy_narrow (q0 q : string) :
  Substring q0 q -> falsy q = true -> falsy q0 = true.
Proof.
  rewrite !JsStringFacts.falsy_true_iff. intros H0 ->.
  now apply substring_of_empty.
Qed.

Lemma page_length (p : nat) (l : list Order.t) :
  length (paginated p l) = Nat.min 10 (length l - p * 10).
Proof.
  now rewrite OrdersFacts.paginated_eq, length_firstn, length_skipn.
Qed.

(** X1. A page of the order table is empty exactly when its index is not
    below the number of pages: every page the bar can reach holds a row,
    and a stale index past the end shows [No orders found] although orders
    match. *)
Theorem page_empty_iff (p : nat) (l : list Order.t) :
  (paginated p l = [] <-> totalPages l <= p)
  /\ (noOrdersFound p l = true <-> totalPages l <= p).
Proof.
  pose proof (OrdersFacts.totalPages_bounds l) as B.
  pose proof (page_length p l) as L.
  assert (E : length (paginated p l) = 0 <-> totalPages l <= p) by lia.
  split.
  - rewrite <- E. symmetry. apply length_zero_iff_nil.
  - unfold noOrdersFound. now rewrite Nat.eqb_eq.
Qed.

(** X2. On every page below the number of pages the footer's
    [Showing a-b of n] tells the truth: [a <= b <= n], the page holds
    [b - a + 1] rows, and its row [j] is the order at position [a - 1 + j]
    of the filtered list. *)
Theorem showing_matches_page (p : nat) (l : list Order.t)
  (Hp : p < totalPages l) :
  showingFrom p <= showingTo p l <= length l
  /\ length (paginated p l) = showingTo p l + 1 - showingFrom p
  /\ (forall j, j < length (paginated p l) ->
        nth_error (paginated p l) j = nth_error l (showingFrom p - 1 + j)).
Proof.
  pose proof (OrdersFacts.totalPages_bounds l) as B.
  pose proof (page_length p l) as L.
  unfold showingFrom, showingTo, PAGE_SIZE in *.
  split; [lia | split; [lia|]].
  intros j Hj. rewrite OrdersFacts.paginated_eq, nth_error_firstn, nth_error_skipn.
  replace (j <? 10)%nat with true by (symmetry; apply Nat.ltb_lt; lia).
  f_equal. lia.
Qed.

(** X3. The two buttons of the pagination bar never lead off the table:
    from a page below the number of pages, a click on either button, enabled
    or not, ends on a page below the number of pages. *)
Theorem buttons_stay_in_range (p : nat) (l : list Order.t)
  (Hp : p < totalPages l) :
  clickPrev p l < totalPages l /\ clickNext p l < totalPages l.
Proof.
  unfold clickPrev, clickNext, barShown, prevDisabled, nextDisabled.
  split.
  - destruct ((1 <? totalPages l)%nat && negb (p =? 0)%nat); lia.
  - destruct (1 <? totalPages l)%nat eqn:E1; simpl; [|exact Hp].
    destruct (totalPages l - 1 <=? p)%nat eqn:E2; simpl; [exact Hp|].
    apply Nat.leb_gt in E2. lia.
Qed.

Lemma matches_filters_only (st st' : State) (o : Order.t) :
  search st' = search st -> statusFilter st' = statusFilter st ->
  dateFilter st' = dateFilter st -> matches st' o = matches st o.
Proof. unfold matches. now intros -> -> ->. Qed.

Lemma toggleSort_filters (f : SortField) (st : State) :
  search (toggleSort f st) = search st
  /\ statusFilter (toggleSort f st) = statusFilter st
  /\ dateFilter (toggleSort f st) = dateFilter st
  /\ page (toggleSort f st) = page st.
Proof. unfold toggleSort. destruct (SortField_eqb _ _); now cbn. Qed.

Lemma SortField_eqb_eq (f g : SortField) : SortField_eqb f g = true <-> f = g.
Proof. destruct f, g; simpl; split; congruence. Qed.

Section WithDates.
Context `{DateFns}.

(** X4. A click on a column header re-orders the rows and nothing else:
    the list after the click is a rearrangement of the list before it, the
    number of pages and the current page index stay what they were. *)
Theorem toggleSort_keeps_rows (f : SortField) (st : State)
  (orders : list Order.t) :
  Permutation (filtered (toggleSort f st) orders) (filtered st orders)
  /\ totalPages (filtered (toggleSort f st) orders)
     = totalPages (filtered st orders)
  /\ page (toggleSort f st) = page st.
Proof.
  destruct (toggleSort_filters f st) as (Hs & Hst & Hd & Hp).
  assert (P : Permutation (filtered (toggleSort f st) orders)
                          (filtered st orders)).
  { rewrite !OrdersFacts.filtered_perm. unfold filterStage.
    rewrite (filter_ext (matches (toggleSort f st)) (matches st));
      [reflexivity|].
    intros o. now apply matches_filters_only. }
  split; [exact P | split; [|exact Hp]].
  unfold totalPages. now rewrite (Permutation_length P).
Qed.

(** Clicks on one column header alternate: the first click on a column
    that is not the current one sorts by it descending, each further click
    on it flips the direction, so two clicks on the current column restore
    the state. *)
Lemma toggleSort_alternates (f : SortField) (st : State) :
  sortField (toggleSort f st) = f
  /\ (sortField st <> f -> sortDir (toggleSort f st) = desc)
  /\ toggleSort f (toggleSort f (toggleSort f st)) = toggleSort f st
  /\ (sortField st = f -> toggleSort f (toggleSort f st) = st).
Proof.
  destruct st as [s sf df g d p]. unfold toggleSort; cbn.
  destruct (SortField_eqb g f) eqn:E; cbn.
  - apply SortField_eqb_eq in E; subst g.
    assert (Ef : SortField_eqb f f = true) by now apply SortField_eqb_eq.
    rewrite !Ef; cbn. rewrite !Ef; cbn.
    repeat split; try congruence; destruct d; reflexivity.
  - assert (Ef : SortField_eqb f f = true) by now apply SortField_eqb_eq.
    rewrite !Ef; cbn. rewrite !Ef; cbn.
    repeat split; try reflexivity.
    intros ->. congruence.
Qed.

(** X5. After a change of the search text, the status filter or the date
    filter the table shows [No orders found] only when no order passes the
    filters: the change puts the page index back to 0, and the first page
    of a list that is not empty is not empty. *)
Theorem filter_change_shows_matches (v : string) (st : State)
  (orders : list Order.t) :
  (noOrdersFound (page (onSearch v st)) (filtered (onSearch v st) orders)
   = true <-> filtered (onSearch v st) orders = [])
  /\ (noOrdersFound (page (onStatus v st)) (filtered (onStatus v st) orders)
      = true <-> filtered (onStatus v st) orders = [])
  /\ (noOrdersFound (page (onDate v st)) (filtered (onDate v st) orders)
      = true <-> filtered (onDate v st) orders = []).
Proof.
  assert (Z0 : forall l : list Order.t,
             noOrdersFound 0 l = true <-> l = []).
  { intros l. unfold noOrdersFound. rewrite Nat.eqb_eq, page_length.
    rewrite <- (length_zero_iff_nil l). lia. }
  repeat split; apply Z0.
Qed.

(** A stable sort leaves a sorted list as it is. *)
Lemma sort_sorted_id (cmp : Order.t -> Order.t -> Z) (l : list Order.t) :
  StronglySorted (fun a b => (cmp a b <= 0)%Z) l -> JsArray.sort cmp l = l.
Proof.
  induction 1 as [|x l Hl IH Hx]; simpl; [reflexivity|].
  rewrite IH. destruct l as [|y l']; [reflexivity|]. simpl.
  inversion Hx as [|? ? Hxy _]; subst.
  now replace (0 <? cmp x y)%Z with false by (symmetry; apply Z.ltb_ge; lia).
Qed.

Lemma sorted_filter {A : Type} (R : A -> A -> Prop) (p : A -> bool)
  (l : list A) :
  StronglySorted R l -> StronglySorted R (filter p l).
Proof.
  induction 1 as [|x l Hl IH Hx]; simpl; [constructor|].
  destruct (p x); [|exact IH]. constructor; [exact IH|].
  rewrite Forall_forall in *. intros y Hy. apply Hx.
  now apply filter_In in Hy.
Qed.

(** X6. When the fetched list already runs in the order the state asks
    for, the page shows the filtered orders in fetched order: sorting moves
    nothing. In particular the freshly mounted page, which sorts by creation
    time descending and filters nothing, shows the list exactly as the query
    delivers it, newest first. *)
Theorem sorted_input_untouched (st : State) (orders : list Order.t)
  (Hsorted : match sortDir st with
             | asc => StronglySorted (fieldLe (sortField st)) orders
             | desc =>
                 StronglySorted (fun a b => fieldLe (sortField st) b a) orders
             end) :
  filtered st orders = filterStage st orders
  /\ (st = initial -> filtered st orders = orders).
Proof.
  assert (E : filtered st orders = filterStage st orders).
  { unfold filtered. apply sort_sorted_id. unfold filterStage.
    apply sorted_filter. destruct (sortDir st).
    - eapply SortFacts.sorted_impl; [|exact Hsorted]. intros a b Hab.
      apply OrdersFacts.compareFn_asc_le. now apply OrdersFacts.fieldLe_val_lt.
    - eapply SortFacts.sorted_impl; [|exact Hsorted]. intros a b Hab.
      apply OrdersFacts.compareFn_desc_le.
      now apply OrdersFacts.fieldLe_val_lt. }
  split; [exact E|]. intros ->. rewrite E. unfold filterStage.
  clear. induction orders as [|o l IH]; [reflexivity|].
  cbn [filter]. replace (matches initial o) with true by reflexivity.
  now rewrite IH.
Qed.

(** X7. Narrowing the search never adds rows: when the old search text,
    lower-cased as the filter lower-cases it, occurs in the lower-cased new
    one, every order listed under the new text was listed under the old
    one. This uses nothing of how [toLowerCase] folds. *)
Theorem longer_search_narrows (q : string) (st : State)
  (orders : list Order.t)
  (Hq : Substring (toLowerCase (search st)) (toLowerCase q)) :
  incl (filtered (onSearch q st) orders) (filtered st orders).
Proof.
  intros o Ho.
  apply (Permutation_in _ (OrdersFacts.filtered_perm _ _)) in Ho.
  apply (Permutation_in _ (Permutation_sym (OrdersFacts.filtered_perm _ _))).
  unfold filterStage in *. rewrite filter_In in *.
  destruct Ho as [Hin Hm]. split; [exact Hin|].
  unfold matches in *. cbn [onSearch search statusFilter dateFilter] in Hm.
  rewrite !andb_true_iff in *. destruct Hm as [[Hs Hst] Hd].
  repeat split; try assumption.
  rewrite !orb_true_iff in *.
  destruct Hs as [[[Hs|Hs]|Hs]|Hs].
  - left; left; left. now apply falsy_narrow with (toLowerCase q).
  - left; left; right. now apply includes_narrow with (toLowerCase q).
  - left; right. now apply includes_narrow with (toLowerCase q).
  - right. now apply includes_narrow with (toLowerCase q).
Qed.

(** X8. The earlier order page, whose sort callback subtracts the two
    instants, lists the orders exactly as the later page does under the same
    filters, column and direction; so what holds of the later page's list on
    the creation and pickup columns holds of the earlier page's. *)
Theorem earlier_page_same_rows (st : OrdersV1.State) (orders : list Order.t) :
  OrdersV1.filtered st orders = filtered (OrdersV1.later st) orders
  /\ Permutation (OrdersV1.filtered st orders)
                 (filterStage (OrdersV1.later st) orders).
Proof.
  rewrite OrdersFacts.v1_filtered_eq. split; [reflexivity|].
  apply OrdersFacts.filtered_perm.
Qed.

End WithDates.

Lemma sorted_input_untouched_witness :
  @filtered RefClock.clock initial Examples.newest_first
  = Examples.newest_first.
Proof.
  apply (@sorted_input_untouched RefClock.clock initial Examples.newest_first);
    [|reflexivity].
  cbn. repeat constructor; vm_compute; discriminate.
Defined.

Lemma longer_search_narrows_witness :
  incl (@filtered RefClock.clock (onSearch "asha@" initial)
          Examples.newest_first)
       (@filtered RefClock.clock (onSearch "sha" initial)
          Examples.newest_first).
Proof.
  apply (@longer_search_narrows RefClock.clock "asha@" (onSearch "sha" initial)
           Examples.newest_first).
  exists "a", "@". reflexivity.
Defined.

Lemma showing_matches_page_witness :
  length (paginated 2 Examples.twenty_five)
  = showingTo 2 Examples.twenty_five + 1 - showingFrom 2.
Proof.
  apply (showing_matches_page 2 Examples.twenty_five). vm_compute. lia.
Defined.

Lemma buttons_stay_in_range_witness :
  clickNext 1 Examples.twenty_five < totalPages Examples.twenty_five.
Proof.
  apply (buttons_stay_in_range 1 Examples.twenty_five). vm_compute. lia.
Defined.

End OrdersMore.

(** * More of the dashboard *)

Module DashboardMore.

Import Dashboard.

Lemma list_sum_map_add {A : Type} (f g : A -> nat) (l : list A) :
  list_sum (map (fun x => f x + g x) l)
  = list_sum (map f l) + list_sum (map g l).
Proof. induction l as [|x l IH]; simpl; [reflexivity | lia]. Qed.

(** Among consecutive days at most one is the day [x]. *)
Lemma one_day_in_run (x a : Z) (n s : nat) :
  list_sum (map (fun i => if (x =? a + Z.of_nat i)%Z then 1 else 0) (seq s n))
  = if ((a + Z.of_nat s <=? x) && (x <? a + Z.of_nat s + Z.of_nat n))%Z
    then 1 else 0.
Proof.
  assert (C : forall (f : nat -> nat) i l,
             list_sum (map f (i :: l)) = f i + list_sum (map f l))
    by reflexivity.
  revert s; induction n as [|n IH]; intros s; cbn [seq].
  - destruct (Z.leb_spec (a + Z.of_nat s) x),
      (Z.ltb_spec x (a + Z.of_nat s + Z.of_nat 0));
      simpl; try reflexivity; lia.
  - rewrite C, IH.
    destruct (Z.eqb_spec x (a + Z.of_nat s)),
      (Z.leb_spec (a + Z.of_nat (S s)) x),
      (Z.ltb_spec x (a + Z.of_nat (S s) + Z.of_nat n)),
      (Z.leb_spec (a + Z.of_nat s) x),
      (Z.ltb_spec x (a + Z.of_nat s + Z.of_nat (S n)));
      simpl; try reflexivity; lia.
Qed.

(** X9. The pie chart accounts for every order once: the three slices and
    the orders of any other time slot add up to the total, so with the three
    slots of the store's enumeration the slices add up to the total. *)
Theorem slices_partition_orders (orders : list Order.t) :
  list_sum (map value (slotCounts orders))
  + length (filter (fun o => negb ((Order.time_slot o =? "Morning")
                                   || (Order.time_slot o =? "Evening")
                                   || (Order.time_slot o =? "Night")))
                   orders)
  = total orders.
Proof.
  unfold slotCounts, total. cbn [map value].
  induction orders as [|o l IH]; [reflexivity|]. cbn [filter length].
  destruct (Order.time_slot o =? "Morning") eqn:M,
    (Order.time_slot o =? "Evening") eqn:E,
    (Order.time_slot o =? "Night") eqn:N;
    rewrite ?String.eqb_eq in *; cbn in *; try lia; congruence.
Qed.

(** X10. The summary cards are consistent: no order is both pending and
    completed, so the pending, the completed and the remaining orders add up
    to the total. *)
Theorem cards_partition_orders (orders : list Order.t) :
  pending orders + completed orders
  + length (filter (fun o => negb ((Order.status o =? "Pending")
                                   || (Order.status o =? "Completed")))
                   orders)
  = total orders.
Proof.
  unfold pending, completed, total.
  induction orders as [|o l IH]; [reflexivity|]. cbn [filter length].
  destruct (Order.status o =? "Pending") eqn:P,
    (Order.status o =? "Completed") eqn:C;
    rewrite ?String.eqb_eq in *; cbn in *; try lia; congruence.
Qed.

Section WithDates.
Context `{DateFns}.

Lemma filtered_length (st : Orders.State) (orders : list Order.t) :
  length (Orders.filtered st orders)
  = length (filter (Orders.matches st) orders).
Proof. apply Permutation_length, OrdersFacts.filtered_perm. Qed.

(** X11. A card and the order page agree: the pending and the completed
    card show as many orders as the order page lists when it is opened with
    that status in the address, and the card of today's pickups as many as
    it lists when opened with today's date as pickup date. *)
Theorem cards_match_order_page (now : Z) (orders : list Order.t)
  (Hday : format now "yyyy-MM-dd" <> "") :
  pending orders
  = length (Orders.filtered
              (Orders.onMount (Some "Pending") None Orders.initial) orders)
  /\ completed orders
     = length (Orders.filtered
                 (Orders.onMount (Some "Completed") None Orders.initial)
                 orders)
  /\ todayPickups now orders
     = length (Orders.filtered
                 (Orders.onMount None (Some (format now "yyyy-MM-dd"))
                                 Orders.initial) orders).
Proof.
  rewrite !filtered_length. unfold pending, completed, todayPickups.
  repeat split.
  - f_equal. apply filter_ext. intros o. unfold Orders.matches. cbn.
    now rewrite andb_true_r.
  - f_equal. apply filter_ext. intros o. unfold Orders.matches. cbn.
    now rewrite andb_true_r.
  - f_equal. apply filter_ext. intros o. unfold Orders.matches, Orders.onMount.
    cbn. destruct (format now "yyyy-MM-dd"); [congruence|]. now cbn.
Qed.

Variable localDay : Z -> Z.

Hypothesis format_day :
  forall a b,
    format a "yyyy-MM-dd" = format b "yyyy-MM-dd" <-> localDay a = localDay b.

Hypothesis subDays_day :
  forall t n, localDay (subDays t n) = (localDay t - n)%Z.

(** X12. The values of the daily series add up to the number of orders
    created on one of the fourteen days that end today: an order inside the
    window is counted on one day only, an order outside it on none. *)
Theorem daily_series_counts_window (now : Z) (orders : list Order.t) :
  list_sum (map Dashboard.orders (lineData now orders))
  = length (createdInWindow localDay now orders)
  /\ list_sum (map Dashboard.orders (lineData now orders)) <= total orders.
Proof.
  assert (E : list_sum (map Dashboard.orders (lineData now orders))
              = length (createdInWindow localDay now orders)).
  { unfold lineData. rewrite map_map. cbn [Dashboard.orders].
    rewrite (map_ext _
      (fun i => length (createdOn localDay
                          (localDay now - 13 + Z.of_nat i) orders))).
    2:{ intros i.
        rewrite (DashboardFacts.count_on_day localDay format_day),
          subDays_day.
        do 2 f_equal. lia. }
    unfold createdOn, createdInWindow.
    induction orders as [|o l IH]; [reflexivity|]. cbn [filter].
    rewrite (map_ext _
      (fun i =>
         (if (localDay (getTime (Order.created_at o))
              =? localDay now - 13 + Z.of_nat i)%Z then 1 else 0)
         + length (filter
             (fun o0 => (localDay (getTime (Order.created_at o0))
                         =? localDay now - 13 + Z.of_nat i)%Z) l))).
    2:{ intros i. now destruct (_ =? _)%Z. }
    rewrite list_sum_map_add, IH, one_day_in_run.
    destruct (Z.leb_spec (localDay now - 13)
                (localDay (getTime (Order.created_at o)))),
      (Z.leb_spec (localDay (getTime (Order.created_at o))) (localDay now)),
      (Z.leb_spec (localDay now - 13 + Z.of_nat 0)
                (localDay (getTime (Order.created_at o)))),
      (Z.ltb_spec (localDay (getTime (Order.created_at o)))
                (localDay now - 13 + Z.of_nat 0 + Z.of_nat 14));
      cbn; try reflexivity; lia. }
  split; [exact E|]. rewrite E. unfold createdInWindow, total.
  apply filter_length_le.
Qed.

End WithDates.

(** On 15 February 2026 two of the three orders are picked up: the card
    shows 2, and so does the order page opened with that date. *)
Lemma cards_match_order_page_witness :
  @todayPickups RefClock.calendar Examples.feb_15 Examples.newest_first
  = length (@Orders.filtered RefClock.calendar
              (Orders.onMount None (Some "2026-02-15") Orders.initial)
              Examples.newest_first)
  /\ @todayPickups RefClock.calendar Examples.feb_15 Examples.newest_first
     = 2.
Proof.
  split; [|reflexivity].
  apply (@cards_match_order_page RefClock.calendar Examples.feb_15
           Examples.newest_first).
  vm_compute. discriminate.
Defined.

Lemma daily_series_counts_window_witness :
  list_sum (map Dashboard.orders
              (@lineData RefClock.clock
                 (RefClock.parse "2026-02-14T10:00:00Z")
                 Examples.newest_first))
  <= total Examples.newest_first.
Proof.
  apply (@daily_series_counts_window RefClock.clock RefClock.localDay
           DashboardFacts.ref_format_day DashboardFacts.ref_subDays_day).
Defined.

End DashboardMore.

(** * More of the customer page *)

Module CustomerMore.

Import CustomerEmails.

Lemma counts_set_present (k : string) (v old : Customer.t)
  (m : list (string * Customer.t)) :
  JsMap.get k m = Some old ->
  list_sum (map Customer.count (JsMap.values (JsMap.set k v m)))
  + Customer.count old
  = list_sum (map Customer.count (JsMap.values m)) + Customer.count v.
Proof.
  unfold JsMap.values. induction m as [|[k' v'] m IH]; simpl; [discriminate|].
  destruct (k' =? k) eqn:E; simpl.
  - intros [= ->]. lia.
  - intros G. specialize (IH G). lia.
Qed.

Lemma counts_visit (m : list (string * Customer.t)) (o : Order.t) :
  list_sum (map Customer.count (JsMap.values (visit m o)))
  = S (list_sum (map Customer.count (JsMap.values m))).
Proof.
  unfold visit. destruct (JsMap.get (Order.email o) m) as [c|] eqn:G.
  - match goal with
    | |- context [JsMap.set _ ?v m] =>
        pose proof (counts_set_present (Order.email o) v c m G) as E;
        assert (Hv : Customer.count v = S (Customer.count c))
          by (destruct (Customer.lastDate c <? Order.created_at o);
              reflexivity)
    end.
    lia.
  - rewrite JsMapFacts.set_absent by exact G. unfold JsMap.values.
    rewrite !map_app, list_sum_app. simpl. lia.
Qed.

(** X13. The order counts of the roll-up add up to the number of orders:
    every order is counted in one row, once. *)
Theorem counts_add_up (orders : list Order.t) :
  list_sum (map Customer.count (customers orders)) = length orders.
Proof.
  unfold customers. induction orders as [|o l IH] using rev_ind;
    [reflexivity|].
  rewrite CustomerFacts.aggregate_snoc, counts_visit, IH, length_app.
  simpl. lia.
Qed.

Lemma keys_visit (m : list (string * Customer.t)) (o : Order.t) :
  map fst (visit m o)
  = match JsMap.get (Order.email o) m with
    | Some _ => map fst m
    | None => (map fst m ++ [Order.email o])%list
    end.
Proof.
  unfold visit. destruct (JsMap.get (Order.email o) m) as [c|] eqn:G.
  - apply JsMapFacts.keys_set_present. congruence.
  - rewrite JsMapFacts.set_absent by exact G. now rewrite map_app.
Qed.

(** X14. The rows of the roll-up stand in the order in which their
    e-mails first occur in the fetched orders. *)
Theorem rows_in_first_seen_order (orders : list Order.t) :
  map Customer.email (customers orders)
  = firstOccurrences (map Order.email orders).
Proof.
  rewrite CustomerFacts.aggregate_keys. unfold firstOccurrences.
  induction orders as [|o l IH] using rev_ind; [reflexivity|].
  rewrite CustomerFacts.aggregate_snoc, keys_visit, map_app, rev_app_distr.
  cbn [map rev app nodup].
  pose proof (CustomerFacts.aggregate_has l (Order.email o)) as Hh.
  destruct (in_dec string_dec (Order.email o) (rev (map Order.email l)))
    as [Hin|Hin]; rewrite <- in_rev in Hin.
  - destruct (JsMap.get (Order.email o) (aggregate l)); [exact IH | tauto].
  - destruct (JsMap.get (Order.email o) (aggregate l)) as [c|] eqn:G.
    + exfalso. assert (Some c = None) by (apply Hh; exact Hin). discriminate.
    + cbn [rev]. now rewrite IH.
Qed.

(** X15. Every row of the roll-up is backed by a fetched order: its count
    is at least one, and its name and last date are the name and the
    creation time of one and the same order placed under its e-mail. *)
Theorem rows_backed_by_orders (orders : list Order.t) (c : Customer.t)
  (Hc : In c (customers orders)) :
  1 <= Customer.count c
  /\ exists o, In o orders
       /\ Order.email o = Customer.email c
       /\ Order.customer_name o = Customer.name c
       /\ Order.created_at o = Customer.lastDate c.
Proof.
  destruct (CustomerFacts.aggregate_agrees orders) as [Hnd Hall].
  apply in_map_iff in Hc as [[k c'] [<- Hin]]. simpl.
  apply JsMapFacts.in_get in Hin; [|exact Hnd].
  specialize (Hall k). rewrite Hin in Hall.
  destruct Hall as (He & Hcount & Hlast & _ & o & Hfind & Hname).
  apply find_some in Hfind as [Ho Hd]. apply String.eqb_eq in Hd.
  split.
  - rewrite Hcount. destruct (ordersOf k orders); [contradiction | simpl; lia].
  - exists o. apply CustomerFacts.ordersOf_email in Ho as [Hoe Hoin].
    repeat split; congruence.
Qed.

Lemma filter_none {A : Type} (p : A -> bool) (l : list A) :
  (forall x, In x l -> p x = false) -> filter p l = [].
Proof.
  induction l as [|x l IH]; intros Hp; [reflexivity|]. simpl.
  rewrite (Hp x) by now left. apply IH. intros y Hy. apply Hp. now right.
Qed.

(** X16. The thresholds of the order-count select nest: the rows listed
    under a threshold are listed under every lower threshold, and under
    [all]. *)
Theorem higher_threshold_narrows (a b : string) (n m : nat) (st : State)
  (rows : list Customer.t)
  (Ha : parseInt a = Some n) (Hb : parseInt b = Some m) (Hnm : n <= m) :
  incl (filtered (setMinOrders b st) rows) (filtered (setMinOrders a st) rows)
  /\ incl (filtered (setMinOrders b st) rows)
          (filtered (setMinOrders "all" st) rows).
Proof.
  split; intros c; unfold filtered; rewrite !filter_In;
    rewrite !CustomerFacts.customer_matches_true_iff;
    cbn [setMinOrders search minOrders dateFrom dateTo];
    intros (Hin & Hs & Hmin & Hf & Ht); repeat split; try assumption.
  - right. exists n. split; [exact Ha|].
    destruct Hmin as [->|[k [Hk Hle]]].
    + vm_compute in Hb. discriminate.
    + rewrite Hb in Hk. injection Hk as <-. lia.
  - now left.
Qed.

(** X17. A date range whose first day lies after its last day lists no
    customer. *)
Theorem inverted_range_lists_nothing (st : State) (rows : list Customer.t)
  (Hfrom : dateFrom st <> "") (Hto : dateTo st <> "")
  (Hinv : String.ltb (dateTo st ++ "T23:59:59") (dateFrom st) = true) :
  filtered st rows = [].
Proof.
  apply filter_none. intros c _.
  destruct (matches st c) eqn:M; [|reflexivity]. exfalso.
  apply CustomerFacts.customer_matches_true_iff in M
    as (_ & _ & [Hf|Hf] & [Ht|Ht]); try congruence.
  apply StrOrder.leb_ltb in Hf, Ht.
  pose proof (StrOrder.ltb_false_trans _ _ _ Hf Ht) as F. congruence.
Qed.

(** X18. Narrowing the customer search never adds rows: when the old
    search text, lower-cased as the filter lower-cases it, occurs in the
    lower-cased new one, every row listed under the new text was listed
    under the old one. This uses nothing of how [toLowerCase] folds. *)
Theorem longer_customer_search_narrows (q : string) (st : State)
  (rows : list Customer.t)
  (Hq : Substring (toLowerCase (search st)) (toLowerCase q)) :
  incl (filtered (setSearch q st) rows) (filtered st rows).
Proof.
  intros c. unfold filtered. rewrite !filter_In. intros [Hin Hm].
  split; [exact Hin|]. unfold matches in *.
  cbn [setSearch search minOrders dateFrom dateTo] in Hm.
  rewrite !andb_true_iff in *. destruct Hm as [[[Hs Hmin] Hf] Ht].
  repeat split; try assumption.
  rewrite !orb_true_iff in *.
  destruct Hs as [[Hs|Hs]|Hs].
  - left; left. now apply OrdersMore.falsy_narrow with (toLowerCase q).
  - left; right. now apply OrdersMore.includes_narrow with (toLowerCase q).
  - right. now apply OrdersMore.includes_narrow with (toLowerCase q).
Qed.

(** X19. The view that mixes in the placeholder customers never lists an
    e-mail twice, and it has as many rows as the roll-up of the fetched
    orders and the placeholders under new e-mails together. *)
Theorem merged_view_emails_unique (orders : list Order.t) :
  NoDup (map Customer.email (CustomerEmailsDummy.customers orders))
  /\ length (CustomerEmailsDummy.customers orders)
     = length (customers orders)
       + length (filter
                   (fun d => negb (existsb (String.eqb (Customer.email d))
                                           (map Order.email orders)))
                   CustomerEmailsDummy.DUMMY_CUSTOMERS).
Proof.
  assert (E : CustomerEmailsDummy.customers orders
    = (customers orders
       ++ filter (fun d => negb (existsb (String.eqb (Customer.email d))
                                         (map Order.email orders)))
                 CustomerEmailsDummy.DUMMY_CUSTOMERS)%list).
  { unfold CustomerEmailsDummy.customers, CustomerEmailsDummy.merge.
    fold (aggregate orders).
    rewrite CustomerFacts.addDummy_fold
      by apply CustomerFacts.dummy_emails_distinct.
    unfold customers. f_equal. apply filter_ext. intros d.
    now rewrite CustomerFacts.aggregate_has_existsb. }
  rewrite E, map_app, length_app. split; [|reflexivity].
  destruct (CustomerFacts.aggregate_agrees orders) as [Hnd _].
  apply NoDup_app; [| |].
  - rewrite CustomerFacts.aggregate_keys. exact Hnd.
  - generalize CustomerFacts.dummy_emails_distinct.
    generalize CustomerEmailsDummy.DUMMY_CUSTOMERS as ds.
    induction ds as [|d ds IH]; simpl; [constructor|]. intros Hd.
    inversion Hd as [|? ? Hnotin Hd']; subst.
    destruct (negb _); [|now apply IH]. simpl. constructor; [|now apply IH].
    intros Hin. apply Hnotin. apply in_map_iff in Hin as [d' [Hd1 Hd2]].
    apply filter_In in Hd2 as [Hd2 _]. rewrite <- Hd1. now apply in_map.
  - intros e He Hdummy. rewrite CustomerFacts.aggregate_keys in He.
    apply in_map_iff in Hdummy as [d [<- Hd]].
    apply filter_In in Hd as [_ Hd]. apply negb_true_iff in Hd.
    rewrite <- CustomerFacts.aggregate_has_existsb in Hd.
    unfold JsMap.has in Hd.
    destruct (JsMap.get (Customer.email d) (aggregate orders)) eqn:G;
      [discriminate|].
    now apply JsMapFacts.get_none_iff in G.
Qed.

Lemma rows_backed_by_orders_witness :
  1 <= Customer.count Examples.new_name_row.
Proof.
  apply (rows_backed_by_orders [Examples.old_name; Examples.new_name]
           Examples.new_name_row).
  simpl. now left.
Defined.

Lemma higher_threshold_narrows_witness :
  incl (filtered (setMinOrders "5" initial) [Examples.new_name_row])
       (filtered (setMinOrders "2" initial) [Examples.new_name_row]).
Proof.
  exact (proj1 (higher_threshold_narrows "2" "5" 2 5 initial
                  [Examples.new_name_row] eq_refl eq_refl
                  (le_S _ _ (le_S _ _ (le_S _ _ (le_n 2)))))).
Defined.

Lemma inverted_range_lists_nothing_witness :
  filtered (mkState "" "all" "2026-03-01" "2026-02-01")
           [Examples.new_name_row; Examples.late_customer] = [].
Proof.
  apply (inverted_range_lists_nothing
           (mkState "" "all" "2026-03-01" "2026-02-01")
           [Examples.new_name_row; Examples.late_customer]);
    [discriminate | discriminate | reflexivity].
Defined.

Lemma longer_customer_search_narrows_witness :
  incl (filtered (setSearch "meena" initial)
                 [Examples.new_name_row; Examples.late_customer])
       (filtered (setSearch "een" initial)
                 [Examples.new_name_row; Examples.late_customer]).
Proof.
  exact (longer_customer_search_narrows "meena" (setSearch "een" initial)
           [Examples.new_name_row; Examples.late_customer]
           (ex_intro _ "m" (ex_intro _ "a" eq_refl))).
Defined.

End CustomerMore.

(** * The roll-up and the order of the fetched rows *)

Module RollupFacts.

Import CustomerEmails.

Lemma perm_filter {A : Type} (p : A -> bool) (l l' : list A) :
  Permutation l l' -> Permutation (filter p l) (filter p l').
Proof.
  induction 1 as [| x l l' _ IH | x y l | l l' l'' _ IH1 _ IH2]; simpl.
  - constructor.
  - destruct (p x); [now constructor | exact IH].
  - destruct (p x), (p y); try reflexivity. apply perm_swap.
  - now transitivity (filter p l').
Qed.

Lemma row_of_email (orders : list Order.t) (e : string) :
  In e (map Order.email orders) ->
  exists c, In c (customers orders) /\ Summary orders e c.
Proof.
  intros He. destruct (CustomerFacts.aggregate_agrees orders) as [_ Hall].
  specialize (Hall e).
  destruct (JsMap.get e (aggregate orders)) as [c|] eqn:G; [|contradiction].
  exists c. split; [|exact Hall].
  apply JsMapFacts.get_in in G. unfold customers, JsMap.values.
  change c with (snd (e, c)). now apply in_map.
Qed.

(** X20. The query of the customer page asks for no order of the rows,
    and the roll-up does not need one: fetched in any other order, the same
    orders give every e-mail a row with the same count and the same last
    date. *)
Theorem rollup_ignores_fetch_order (orders orders' : list Order.t)
  (c : Customer.t)
  (Hperm : Permutation orders orders') (Hc : In c (customers orders)) :
  exists c', In c' (customers orders')
    /\ Customer.email c' = Customer.email c
    /\ Customer.count c' = Customer.count c
    /\ Customer.lastDate c' = Customer.lastDate c.
Proof.
  destruct (CustomerFacts.aggregate_agrees orders) as [Hnd Hall].
  apply in_map_iff in Hc as [[k c0] [<- Hin]]. simpl.
  apply JsMapFacts.in_get in Hin; [|exact Hnd].
  specialize (Hall k). rewrite Hin in Hall.
  destruct Hall as (He & Hcount & Hlast & Hmax & _).
  assert (Hk : In k (map Order.email orders')).
  { apply in_map_iff in Hlast as [o [_ Ho]].
    apply CustomerFacts.ordersOf_email in Ho as [<- Ho].
    apply in_map. now apply (Permutation_in _ Hperm). }
  destruct (row_of_email orders' k Hk)
    as [c' [Hc' (He' & Hcount' & Hlast' & Hmax' & _)]].
  assert (P : Permutation (ordersOf k orders) (ordersOf k orders'))
    by now apply perm_filter.
  exists c'. repeat split; try congruence.
  - rewrite Hcount, Hcount'. symmetry. now apply Permutation_length.
  - apply in_map_iff in Hlast as [o [Eo Ho]].
    apply in_map_iff in Hlast' as [o' [Eo' Ho']].
    apply (Permutation_in _ P) in Ho.
    apply (Permutation_in _ (Permutation_sym P)) in Ho'.
    specialize (Hmax' o Ho). specialize (Hmax o' Ho').
    rewrite Eo in Hmax'. rewrite Eo' in Hmax.
    now apply StrOrder.ltb_connex.
Qed.

Lemma rollup_ignores_fetch_order_witness :
  exists c', In c' (customers [Examples.new_name; Examples.old_name])
    /\ Customer.email c' = Customer.email Examples.new_name_row
    /\ Customer.count c' = Customer.count Examples.new_name_row
    /\ Customer.lastDate c' = Customer.lastDate Examples.new_name_row.
Proof.
  apply (rollup_ignores_fetch_order [Examples.old_name; Examples.new_name]).
  - apply perm_swap.
  - simpl. now left.
Defined.

End RollupFacts.

(** * The lines of the CSV file *)

Module CsvFacts.

Import CustomerEmails.

Lemma split_clean (a : string) : hasLineFeed a = false -> split_lf a = [a].
Proof.
  induction a as [|c a IH]; simpl; [reflexivity|].
  destruct (Ascii.eqb c (ascii_of_nat 10)); [discriminate|].
  simpl. intros Ha. now rewrite IH.
Qed.

Lemma split_app_nl (a b : string) :
  hasLineFeed a = false -> split_lf (a ++ nl ++ b) = a :: split_lf b.
Proof.
  change (nl ++ b) with (String (ascii_of_nat 10) b).
  induction a as [|c a IH]; [reflexivity|].
  cbn [hasLineFeed append split_lf].
  destruct (Ascii.eqb c (ascii_of_nat 10)); [discriminate|].
  cbn [orb]. intros Ha. now rewrite (IH Ha).
Qed.

Lemma split_join (xs : list string) :
  xs <> [] -> (forall x, In x xs -> hasLineFeed x = false) ->
  split_lf (String.concat nl xs) = xs.
Proof.
  induction xs as [|x xs IH]; [congruence|]. intros _ Hx.
  destruct xs as [|y xs].
  - simpl. apply split_clean. apply Hx. now left.
  - change (String.concat nl (x :: y :: xs))
      with (x ++ nl ++ String.concat nl (y :: xs)).
    rewrite split_app_nl by (apply Hx; now left).
    f_equal. apply IH; [discriminate|]. intros z Hz. apply Hx. now right.
Qed.

Section WithDates.
Context `{DateFns}.

(** X21. Split at its line feeds, the CSV file gives back the header and
    then the line of every row, in order, as long as no line of a row holds
    a line feed itself; with no row the header is followed by one empty
    line. *)
Theorem csv_lines_round_trip (rows : list Customer.t)
  (Hclean : forall c, In c rows -> hasLineFeed (csvRow c) = false) :
  split_lf (exportCSV rows)
  = "Email,Customer Name,Total Orders,Last Order Date"
    :: match rows with [] => [""] | _ => map csvRow rows end.
Proof.
  unfold exportCSV. cbv zeta.
  change (("Email,Customer Name,Total Orders,Last Order Date" ++ nl)
          ++ String.concat nl (map csvRow rows))
    with ("Email,Customer Name,Total Orders,Last Order Date" ++ nl
          ++ String.concat nl (map csvRow rows)).
  rewrite split_app_nl by reflexivity. f_equal.
  destruct rows as [|c rows]; [reflexivity|].
  apply split_join; [discriminate|].
  intros x Hx. apply in_map_iff in Hx as [c' [<- Hc']]. now apply Hclean.
Qed.

End WithDates.

Lemma csv_lines_round_trip_witness :
  split_lf (@exportCSV RefClock.clock
              [Examples.new_name_row; Examples.late_customer])
  = "Email,Customer Name,Total Orders,Last Order Date"
    :: map (@csvRow RefClock.clock)
           [Examples.new_name_row; Examples.late_customer].
Proof.
  apply (@csv_lines_round_trip RefClock.clock
           [Examples.new_name_row; Examples.late_customer]).
  intros c [<-|[<-|[]]]; reflexivity.
Defined.

End CsvFacts.

(** * The login page *)

Module AdminLoginFacts.

Import AdminLogin.

(** X22. The login form opens the dashboard exactly when the sign-in
    resolves without error, after a sign-up that resolved without error when
    the form is in sign-up mode, and it opens nothing else. The form is left
    loading, its button disabled, exactly when the first call it awaits
    rejects: nothing catches the rejection. In every case it keeps the
    e-mail and the password; when it opens the dashboard it shows no error
    and is not loading; it stays in sign-up mode exactly when the sign-up
    did not resolve without error. *)
Theorem submit_opens_dashboard_iff (st : State) (signUp signIn : Reply) :
  let st' := fst (handleSubmit st signUp signIn) in
  let route := snd (handleSubmit st signUp signIn) in
  (route = Some "/admin/dashboard"
   <-> (exists e, signIn = resolved e /\ truthy e = false)
       /\ (isSignup st = true -> signUp = resolved None))
  /\ (route = None \/ route = Some "/admin/dashboard")
  /\ (loading st' = true
      <-> (isSignup st = true /\ signUp = rejected)
          \/ (isSignup st = false /\ signIn = rejected))
  /\ email st' = email st /\ password st' = password st
  /\ (route <> None -> error st' = "" /\ loading st' = false)
  /\ (isSignup st' = true
      <-> isSignup st = true /\ signUp <> resolved None).
Proof.
  unfold handleSubmit.
  destruct (isSignup st) eqn:Hmode;
    destruct signUp as [|[m|]]; destruct signIn as [|e];
    try destruct (truthy e) eqn:He; cbn;
    intuition (try congruence);
    repeat match goal with
           | H : exists _, _ |- _ => destruct H as [? [? ?]]
           end;
    try congruence;
    try (eexists; split; [reflexivity | assumption]).
Qed.

End AdminLoginFacts.
